(** * FreshFin: the monthly finance aggregator of [App.tsx]

  A shallow embedding of the computations of the two versions of [App.tsx]
  (the one with month navigation through [viewDate], and the older one that
  only shows the month of today), of the event handlers that write the
  transaction list and the budget, and the properties that the
  specification states about them.

  Modelling choices, valid for the whole development:
  - a JavaScript [number] that holds an amount is an exact rational ([Qc],
    rationals in lowest terms, with Leibniz equality); the rounding of
    IEEE-754 doubles and the infinities are not represented, and [NaN] only
    where a definition says so ([parseInt] and [parseFloat] return [None]
    for it, a percentage is [None] when its amount is a string);
  - a number that counts days or years is an integer ([Z]);
  - a [Date] is the record of its local calendar fields and of its time
    value;
  - strings are [string]s, and the functions of the language that the
    source calls on them ([startsWith], [split], [padStart], [parseInt])
    are written out;
  - the callback of a [useMemo] is a function; the cells that keep its
    value from one render to the next, and the clock value at which each
    value was computed, are modelled in [Memo]; one render reads the clock
    once;
  - the object [groupMap] and the [Map] [dayMap] keep what the language
    gives them: the prototype and the key order of an object, the key
    [NaN] of a map. *)

From Stdlib Require Import QArith Qcanon Ascii String.
From stdpp Require Import base numbers list strings pretty gmap sorting.

Local Open Scope string_scope.
Local Open Scope list_scope.
Local Open Scope Z_scope.

(** ** Numbers *)

Module Num.

(** The rational [n], for an integer literal or an integer variable used
    in a division. *)
Definition ofZ (n : Z) : Qc := Qc_of_Z n.

(** [Math.max] on amounts. *)
Definition max (a b : Qc) : Qc := if decide (a ≤ b)%Qc then b else a.

End Num.

(** ** Strings: the library functions of the source *)

Module Str.

(** [s.startsWith(p)]. *)
Definition startsWith (s p : string) : bool := String.prefix p s.

(** [s.split(sep)] for a one-character separator: the pieces between the
    occurrences of [sep]; a string without separator is its only piece. *)
Fixpoint split_go (sep : ascii) (s : string) (cur : string) : list string :=
  match s with
  | EmptyString => [String.rev cur]
  | String c rest =>
      if decide (c = sep) then String.rev cur :: split_go sep rest EmptyString
      else split_go sep rest (String c cur)
  end.

Definition split (sep : ascii) (s : string) : list string :=
  split_go sep s EmptyString.

(** [String(n)] for an integer. *)
Definition ofZ (n : Z) : string := pretty n.

(** [s.padStart(2, '0')]. *)
Definition padStart2 (s : string) : string :=
  match String.length s with
  | O => "00"
  | S O => String "0" s
  | _ => s
  end.

(** White space skipped by [parseInt] (the ASCII part of it). *)
Definition isSpace (c : ascii) : bool :=
  let n := nat_of_ascii c in
  bool_decide (n = 32 ∨ n = 9 ∨ n = 10 ∨ n = 11 ∨ n = 12 ∨ n = 13)%nat.

Fixpoint trimStart (s : string) : string :=
  match s with
  | String c rest => if isSpace c then trimStart rest else s
  | EmptyString => EmptyString
  end.

(** The value of a digit in the given radix, if it is one. *)
Definition digitVal (radix : Z) (c : ascii) : option Z :=
  let n := Z.of_nat (nat_of_ascii c) in
  let v :=
    if bool_decide (48 ≤ n ≤ 57) then Some (n - 48)
    else if bool_decide (97 ≤ n ≤ 122) then Some (n - 87)
    else if bool_decide (65 ≤ n ≤ 90) then Some (n - 55)
    else None in
  match v with
  | Some d => if bool_decide (d < radix) then Some d else None
  | None => None
  end.

(** The longest prefix of digits, read in the radix; [None] when the
    string does not start with a digit. *)
Fixpoint digits (radix : Z) (s : string) (acc : option Z) : option Z :=
  match s with
  | EmptyString => acc
  | String c rest =>
      match digitVal radix c with
      | Some d => digits radix rest (Some (default 0 acc * radix + d))
      | None => acc
      end
  end.

(** An optional sign and what follows it. *)
Definition signOf (s : string) : Z * string :=
  match s with
  | String "-" rest => (-1, rest)
  | String "+" rest => (1, rest)
  | _ => (1, s)
  end.

(** [parseInt(s)] without radix: leading white space, an optional sign,
    an optional [0x] prefix, then the digits. [None] is [NaN]. *)
Definition parseInt (s : string) : option Z :=
  let '(sign, s) := signOf (trimStart s) in
  let '(radix, s) :=
    match s with
    | String "0" (String "x" rest) => (16, rest)
    | String "0" (String "X" rest) => (16, rest)
    | _ => (10, s)
    end in
  (λ n, sign * n) <$> digits radix s None.

(** The longest prefix of decimal digits and what follows it. *)
Fixpoint takeDigits (s : string) : list Z * string :=
  match s with
  | EmptyString => ([], EmptyString)
  | String c rest =>
      match digitVal 10 c with
      | Some d => let '(ds, r) := takeDigits rest in (d :: ds, r)
      | None => ([], s)
      end
  end.

Definition digitsValue (ds : list Z) : Z := foldl (λ acc d, acc * 10 + d) 0 ds.

Definition pow10 (e : Z) : Qc :=
  if bool_decide (0 ≤ e) then (Qc_of_Z 10 ^ Z.to_nat e)%Qc
  else (1 / Qc_of_Z 10 ^ Z.to_nat (- e))%Qc.

(** [parseFloat(s)] on decimal literals: leading white space, an optional
    sign, digits with an optional fraction and an optional exponent; text
    after the literal is ignored. [None] is [NaN]. The value is the exact
    rational: the literal [Infinity], and the rounding of a literal beyond
    the range of a double to [Infinity] or to 0, are not represented. *)
Definition parseFloat (s : string) : option Qc :=
  let '(sign, s) := signOf (trimStart s) in
  let '(ip, s) := takeDigits s in
  let '(fp, s) :=
    match s with
    | String "." rest => takeDigits rest
    | _ => ([], s)
    end in
  if bool_decide (ip = [] ∧ fp = []) then None
  else
    let e :=
      match s with
      | String c rest =>
          if bool_decide (c = "e"%char ∨ c = "E"%char) then
            let '(esign, rest) := signOf rest in
            let '(ed, _) := takeDigits rest in
            if bool_decide (ed = []) then 0 else esign * digitsValue ed
          else 0
      | EmptyString => 0
      end in
    Some (Qc_of_Z sign
          * (Qc_of_Z (digitsValue ip)
             + Qc_of_Z (digitsValue fp) / pow10 (Z.of_nat (length fp)))
          * pow10 e)%Qc.

End Str.

(** ** The types of [types.ts] *)

Inductive TransactionType := EXPENSE | INCOME.

Global Instance TransactionType_eq_dec : EqDecision TransactionType.
Proof. solve_decision. Defined.

Module Transaction.
Record t := mk {
  id : string;
  title : string;
  amount : Qc;
  type : TransactionType;
  date : string;        (* ISO string YYYY-MM-DD *)
  timestamp : Z
}.
End Transaction.

Module DailyStats.
Record t := mk {
  daysRemaining : Z;
  dailyAvailable : Qc;
  totalSpentThisMonth : Qc;
  totalIncomeThisMonth : Qc;
  remainingBudget : Qc
}.
End DailyStats.

Module ChartDataPoint.
Record t := mk {
  date : string;        (* day of month *)
  income : Qc;
  expense : Qc
}.
End ChartDataPoint.

(** ** [Date] objects *)

Module JsDate.

(** The local calendar fields of a [Date], named after their getters
    ([getMonth] counts from 0), and its time value, which [>] compares. *)
Record t := mk {
  getFullYear : Z;
  getMonth : Z;
  getDate : Z;
  getTime : Z
}.

(** [a > b] on two [Date]s compares their time values. *)
Definition gt (a b : t) : bool := bool_decide (getTime b < getTime a).

Definition isLeapYear (y : Z) : bool :=
  bool_decide (y mod 4 = 0) &&
  (negb (bool_decide (y mod 100 = 0)) || bool_decide (y mod 400 = 0)).

(** Number of days of the month with index [m] (0 to 11) of year [y]. *)
Definition monthLength (y m : Z) : Z :=
  match m with
  | 1 => if isLeapYear y then 29 else 28
  | 3 | 5 | 8 | 10 => 30
  | _ => 31
  end.

(** [new Date(year, monthIndex, 0).getDate()]: the constructor reads a year
    from 0 to 99 as 1900 + year, carries a month index outside 0..11 into the
    year, and day 0 is the last day of the month before. *)
Definition lastDayBefore (year monthIndex : Z) : Z :=
  let y := if bool_decide (0 ≤ year ≤ 99) then 1900 + year else year in
  let ym := y + monthIndex / 12 in
  let mn := monthIndex mod 12 in
  if bool_decide (mn = 0) then monthLength (ym - 1) 11
  else monthLength ym (mn - 1).

(** Days from 1970-01-01 to the day [d] of the month with index [m] of
    year [y], in the proleptic Gregorian calendar. *)
Definition daysFromEpoch (y m d : Z) : Z :=
  let y' := if bool_decide (m ≤ 1) then y - 1 else y in
  let era := y' / 400 in
  let yoe := y' - era * 400 in
  let mp := if bool_decide (m ≤ 1) then m + 10 else m - 2 in
  let doy := (153 * mp + 2) / 5 + d - 1 in
  let doe := yoe * 365 + yoe / 4 - yoe / 100 + doy in
  era * 146097 + doe - 719468.

(** The year, month index and day of the month that lie [days] days after
    1970-01-01. *)
Definition fromDays (days : Z) : Z * Z * Z :=
  let z := days + 719468 in
  let era := z / 146097 in
  let doe := z - era * 146097 in
  let yoe := (doe - doe / 1460 + doe / 36524 - doe / 146096) / 365 in
  let doy := doe - (365 * yoe + yoe / 4 - yoe / 100) in
  let mp := (5 * doy + 2) / 153 in
  let d := doy - (153 * mp + 2) / 5 + 1 in
  let m := if bool_decide (mp < 10) then mp + 2 else mp - 10 in
  let y := yoe + era * 400 + (if bool_decide (m ≤ 1) then 1 else 0) in
  (y, m, d).

(** [date.setMonth(monthIndex)]: the month index is carried into the year
    and a day past the end of the month into the month after; the time of
    the day is kept. The time value moves by whole days of 86400000 ms, as
    in a zone without clock changes; no statement below depends on it. *)
Definition setMonth (date : t) (monthIndex : Z) : t :=
  let ym := getFullYear date + monthIndex / 12 in
  let mn := monthIndex mod 12 in
  let days := daysFromEpoch ym mn 1 + (getDate date - 1) in
  let '(y, m, d) := fromDays days in
  let before := daysFromEpoch (getFullYear date) (getMonth date) (getDate date) in
  mk y m d (getTime date + (days - before) * 86400000).

(** The [Date] of midnight of a calendar day, in a zone without offset. *)
Definition atMidnight (y m d : Z) : t :=
  mk y m d (daysFromEpoch y m d * 86400000).

(** A date of the calendar, in a year that the constructor does not read as
    19xx (it does so for the years 0 to 99). *)
Definition valid (d : t) : Prop :=
  0 ≤ getMonth d ≤ 11
  ∧ 1 ≤ getDate d ≤ monthLength (getFullYear d) (getMonth d)
  ∧ ¬ (0 ≤ getFullYear d ≤ 99).

End JsDate.

(** ** A plain object used as a map from strings to numbers

    [const groupMap: Record<string, number> = {}] is an ordinary object: a
    read of a key it does not own falls through to [Object.prototype], a
    write to [__proto__] goes to the setter of the prototype, and
    [Object.entries] lists the keys that are array indices first, in
    ascending numeric order, and then the other keys in the order in which
    they were created. *)

Module Obj.

(** What a property of [groupMap] can hold: a number, or the string that [+]
    produces once an operand is not a number. Every such string starts with
    the text of a member of [Object.prototype]: it is not empty and it is
    not a numeric literal. *)
Inductive value := VNum (n : Qc) | VStr.

(** Own properties, in creation order. *)
Definition t := list (string * value).

Definition empty : t := [].

(** The names that every object inherits from [Object.prototype]. *)
Definition prototypeKeys : list string :=
  ["constructor"; "__defineGetter__"; "__defineSetter__"; "hasOwnProperty";
   "__lookupGetter__"; "__lookupSetter__"; "isPrototypeOf";
   "propertyIsEnumerable"; "toString"; "valueOf"; "__proto__";
   "toLocaleString"].

(** The result of the read [o[k]]. *)
Inductive read := Own (v : value) | Inherited | Undefined.

Fixpoint getOwn (o : t) (k : string) : option value :=
  match o with
  | [] => None
  | (k', v) :: o' => if decide (k' = k) then Some v else getOwn o' k
  end.

Definition get (o : t) (k : string) : read :=
  match getOwn o k with
  | Some v => Own v
  | None => if decide (k ∈ prototypeKeys) then Inherited else Undefined
  end.

(** [(o[k] || 0) + x] for a number [x]: [undefined] and the number 0 are
    falsy and give [0 + x]; an inherited member and a string are truthy and
    [+] concatenates. *)
Definition orZeroPlus (r : read) (x : Qc) : value :=
  match r with
  | Own (VNum n) => if decide (n = 0%Qc) then VNum (0 + x)%Qc else VNum (n + x)%Qc
  | Own VStr => VStr
  | Inherited => VStr
  | Undefined => VNum (0 + x)%Qc
  end.

Fixpoint update (o : t) (k : string) (v : value) : t :=
  match o with
  | [] => []
  | (k', v') :: o' => if decide (k' = k) then (k', v) :: o' else (k', v') :: update o' k v
  end.

(** The assignment [o[k] = v] of a number or a string: the setter
    of [__proto__] ignores a value that is not an object; an own property is
    overwritten in place; any other key is created after the existing ones. *)
Definition set (o : t) (k : string) (v : value) : t :=
  if decide (k = "__proto__") then o
  else match getOwn o k with
       | Some _ => update o k v
       | None => (o ++ [(k, v)])%list
       end.

(** The numeric value of a string of decimal digits. *)
Fixpoint decimal (s : string) (acc : Z) : option Z :=
  match s with
  | EmptyString => Some acc
  | String c rest =>
      match Str.digitVal 10 c with
      | Some d => decimal rest (acc * 10 + d)
      | None => None
      end
  end.

(** An array index is the canonical decimal form of an integer from 0 to
    2^32 - 2. *)
Definition arrayIndex (k : string) : option Z :=
  match k with
  | EmptyString => None
  | String c rest =>
      if bool_decide (c = "0"%char ∧ rest ≠ EmptyString) then None
      else match decimal k 0 with
           | Some n => if bool_decide (n < 4294967295) then Some n else None
           | None => None
           end
  end.

Definition isArrayIndex (k : string) : Prop := is_Some (arrayIndex k).

Global Instance isArrayIndex_dec k : Decision (isArrayIndex k).
Proof. unfold isArrayIndex. apply _. Defined.

Definition indexOf (e : string * value) : Z := default 0 (arrayIndex e.1).

Fixpoint insertByIndex (e : string * value) (l : list (string * value)) :=
  match l with
  | [] => [e]
  | e' :: l' =>
      if bool_decide (indexOf e ≤ indexOf e') then e :: l
      else e' :: insertByIndex e l'
  end.

Definition sortByIndex (l : list (string * value)) : list (string * value) :=
  foldr insertByIndex [] l.

(** [Object.entries(o)]. *)
Definition entries (o : t) : list (string * value) :=
  (sortByIndex (filter (λ e, isArrayIndex e.1) o)
   ++ filter (λ e, ¬ isArrayIndex e.1) o)%list.

End Obj.

Module CategoryData.
(** [amount] is what [groupMap] held for the name; [percentage] is [None]
    for [NaN], the result of dividing a string that is not numeric. *)
Record t := mk {
  name : string;
  amount : Obj.value;
  percentage : option Qc
}.
End CategoryData.

(** ** [Array.prototype.sort]

    The sort of the language is stable, and a comparator that returns [NaN]
    counts as returning 0. For a consistent comparator this determines the
    result, which the insertion sort below computes. For a comparator that
    is not consistent (one that returns [NaN] for some pairs only, as
    [byAmountDesc] does when an amount is a string) the order of the result
    depends on the algorithm of the engine; no statement below depends on
    the order in that case. *)

Module JsArray.

Section Sort.
Context {A : Type}.
(** The comparator, [None] for [NaN]. *)
Variable cmp : A → A → option Qc.

(** [a] must come after [b]: the comparator is positive. *)
Definition after (a b : A) : bool :=
  match cmp a b with
  | Some c => bool_decide (0 < c)%Qc
  | None => false
  end.

Fixpoint insert (x : A) (l : list A) : list A :=
  match l with
  | [] => [x]
  | y :: l' => if after x y then y :: insert x l' else x :: l
  end.

Definition sort (l : list A) : list A := foldr insert [] l.
End Sort.

End JsArray.

(** ** The state of the component and the environment of a handler

    The [useState] cells that the handlers read and write, each with its
    setter, and what a handler reads from outside. *)

Module AppState.
(** The array in [transactions] and the [Date] in [viewDate] are objects:
    [useMemo] compares them by identity. [transactionsId] and [viewDateId]
    number the objects that the two cells have held; a setter that stores a
    new array or a new [Date] moves to the next number. *)
Record t := mk {
  transactions : list Transaction.t;
  monthlyBudget : Qc;
  viewDate : JsDate.t;         (* absent from the older version *)
  newTransTitle : string;
  newTransAmount : string;
  newTransType : TransactionType;
  isBudgetModalOpen : bool;
  tempBudgetInput : string;
  transactionsId : nat;
  viewDateId : nat
}.

Definition setTransactions (f : list Transaction.t → list Transaction.t) (s : t) : t :=
  mk (f (transactions s)) (monthlyBudget s) (viewDate s) (newTransTitle s)
     (newTransAmount s) (newTransType s) (isBudgetModalOpen s) (tempBudgetInput s)
     (S (transactionsId s)) (viewDateId s).
Definition setMonthlyBudget (b : Qc) (s : t) : t :=
  mk (transactions s) b (viewDate s) (newTransTitle s)
     (newTransAmount s) (newTransType s) (isBudgetModalOpen s) (tempBudgetInput s)
     (transactionsId s) (viewDateId s).
Definition setViewDate (d : JsDate.t) (s : t) : t :=
  mk (transactions s) (monthlyBudget s) d (newTransTitle s)
     (newTransAmount s) (newTransType s) (isBudgetModalOpen s) (tempBudgetInput s)
     (transactionsId s) (S (viewDateId s)).
Definition setNewTransTitle (x : string) (s : t) : t :=
  mk (transactions s) (monthlyBudget s) (viewDate s) x
     (newTransAmount s) (newTransType s) (isBudgetModalOpen s) (tempBudgetInput s)
     (transactionsId s) (viewDateId s).
Definition setNewTransAmount (x : string) (s : t) : t :=
  mk (transactions s) (monthlyBudget s) (viewDate s) (newTransTitle s)
     x (newTransType s) (isBudgetModalOpen s) (tempBudgetInput s)
     (transactionsId s) (viewDateId s).
Definition setNewTransType (k : TransactionType) (s : t) : t :=
  mk (transactions s) (monthlyBudget s) (viewDate s) (newTransTitle s)
     (newTransAmount s) k (isBudgetModalOpen s) (tempBudgetInput s)
     (transactionsId s) (viewDateId s).
Definition setIsBudgetModalOpen (b : bool) (s : t) : t :=
  mk (transactions s) (monthlyBudget s) (viewDate s) (newTransTitle s)
     (newTransAmount s) (newTransType s) b (tempBudgetInput s)
     (transactionsId s) (viewDateId s).
Definition setTempBudgetInput (x : string) (s : t) : t :=
  mk (transactions s) (monthlyBudget s) (viewDate s) (newTransTitle s)
     (newTransAmount s) (newTransType s) (isBudgetModalOpen s) x
     (transactionsId s) (viewDateId s).
End AppState.

Module Env.
(** What one call of [handleAddTransaction] reads from outside:
    [crypto.randomUUID()], [new Date()], its [toISOString()], [Date.now()],
    and the variable [isCurrentMonth] of its closure, which holds the value
    that the [useMemo] cell of this name had at the last render (the older
    version has no such variable). *)
Record t := mk {
  randomUUID : string;
  newDate : JsDate.t;
  toISOString : string;
  dateNow : Z;
  isCurrentMonth : bool
}.
End Env.

(** ** Pieces shared by the two versions of [App.tsx]

    The callbacks passed to [filter], [reduce], [forEach], [map] and [sort],
    and the two loops over [dayMap], are the same text in both files. *)

Module Shared.

(** [.reduce((sum, t) => sum + t.amount, 0)]. *)
Definition sumAmounts (l : list Transaction.t) : Qc :=
  foldl (λ sum t, sum + Transaction.amount t)%Qc 0%Qc l.

(** [.filter(t => t.type === k)]. *)
Definition ofType (k : TransactionType) (l : list Transaction.t) : list Transaction.t :=
  filter (λ t, Transaction.type t = k) l.

(** [.filter(t => t.date.startsWith(monthStr))]. *)
Definition inMonth (monthStr : string) (l : list Transaction.t) : list Transaction.t :=
  filter (λ t, Str.startsWith (Transaction.date t) monthStr = true) l.

(** [`${year}-${String(month + 1).padStart(2, '0')}`]. *)
Definition monthStr (d : JsDate.t) : string :=
  Str.ofZ (JsDate.getFullYear d) +:+ "-"
  +:+ Str.padStart2 (Str.ofZ (JsDate.getMonth d + 1)).

(** An entry of [dayMap]. *)
Record bucket := mkBucket { b_income : Qc; b_expense : Qc }.

(** Keys of [dayMap]: numbers, [None] being [NaN] (a [Map] finds [NaN]). *)
Abbreviation dayMap := (gmap (option Z) bucket).

(** [for (let i = 1; i <= daysInMonth; i++) dayMap.set(i, {income: 0, expense: 0})]. *)
Definition initDays (daysInMonth : Z) : dayMap :=
  foldl (λ m i, <[Some i := mkBucket 0 0]> m) ∅ (seqZ 1 daysInMonth).

(** [parseInt(t.date.split('-')[2])]; a missing third piece is [undefined],
    which [parseInt] reads as the text "undefined". *)
Definition dayOf (t : Transaction.t) : option Z :=
  match Str.split "-" (Transaction.date t) !! 2%nat with
  | Some piece => Str.parseInt piece
  | None => None
  end.

(** The body of [currentMonthTransactions.forEach]. *)
Definition addToDay (m : dayMap) (t : Transaction.t) : dayMap :=
  let day := dayOf t in
  let current := default (mkBucket 0 0) (m !! day) in
  let current :=
    if decide (Transaction.type t = INCOME)
    then mkBucket (b_income current + Transaction.amount t) (b_expense current)
    else mkBucket (b_income current) (b_expense current + Transaction.amount t) in
  <[day := current]> m.

Definition fillDays (m : dayMap) (l : list Transaction.t) : dayMap :=
  foldl addToDay m l.

(** [x || 0] on a number. *)
Definition orZero (x : Qc) : Qc := if decide (x = 0%Qc) then 0%Qc else x.

(** [{date: `${i}日`, income: entry?.income || 0, expense: entry?.expense || 0}]. *)
Definition point (m : dayMap) (i : Z) : ChartDataPoint.t :=
  let entry := m !! Some i in
  ChartDataPoint.mk (Str.ofZ i +:+ "日")
    (orZero (default 0%Qc (b_income <$> entry)))
    (orZero (default 0%Qc (b_expense <$> entry))).

(** The loop that fills [data]: the days from 1 to [daysInMonth] that are
    at most [showUntilDay]. *)
Definition emit (m : dayMap) (daysInMonth showUntilDay : Z) : list ChartDataPoint.t :=
  foldl (λ data i, if bool_decide (i ≤ showUntilDay) then data ++ [point m i] else data)%list
        [] (seqZ 1 daysInMonth).

(** The body of [expenses.forEach] in [categoryStats]. *)
Definition addToGroup (groupMap : Obj.t) (t : Transaction.t) : Obj.t :=
  Obj.set groupMap (Transaction.title t)
    (Obj.orZeroPlus (Obj.get groupMap (Transaction.title t)) (Transaction.amount t)).

(** [(amount / totalExpense) * 100]. *)
Definition percentageOf (amount : Obj.value) (totalExpense : Qc) : option Qc :=
  match amount with
  | Obj.VNum a => Some (a / totalExpense * Num.ofZ 100)%Qc
  | Obj.VStr => None
  end.

(** [(a, b) => b.amount - a.amount]. *)
Definition byAmountDesc (a b : CategoryData.t) : option Qc :=
  match CategoryData.amount b, CategoryData.amount a with
  | Obj.VNum y, Obj.VNum x => Some (y - x)%Qc
  | _, _ => None
  end.

(** [([name, amount]) => ({name, amount, percentage: ...})]. *)
Definition toCategory (totalExpense : Qc) (e : string * Obj.value) : CategoryData.t :=
  CategoryData.mk e.1 e.2 (percentageOf e.2 totalExpense).

(** [!s] on a string. *)
Definition isEmpty (s : string) : bool := bool_decide (s = "").

(** [new Date().toISOString().split('T')[0]]. *)
Definition todayStr (env : Env.t) : string :=
  default "" (Str.split "T" (Env.toISOString env) !! 0%nat).

(** [(a, b) => b.timestamp - a.timestamp], the comparator of the list of
    the page. *)
Definition byTimestampDesc (a b : Transaction.t) : option Qc :=
  Some (Qc_of_Z (Transaction.timestamp b - Transaction.timestamp a)).

(** The object literal [newTransaction]. *)
Definition newTransaction (s : AppState.t) (env : Env.t) (amount : Qc)
  : Transaction.t :=
  Transaction.mk (Env.randomUUID env) (AppState.newTransTitle s) amount
    (AppState.newTransType s) (todayStr env) (Env.dateNow env).

End Shared.

(** ** [App.tsx], the version with month navigation *)

Module App.
Import Shared.

Definition isCurrentMonth (viewDate today : JsDate.t) : bool :=
  bool_decide (JsDate.getMonth viewDate = JsDate.getMonth today)
  && bool_decide (JsDate.getFullYear viewDate = JsDate.getFullYear today).

Definition currentMonthStr (viewDate : JsDate.t) : string := monthStr viewDate.

Definition currentMonthTransactions (transactions : list Transaction.t)
  (viewDate : JsDate.t) : list Transaction.t :=
  inMonth (currentMonthStr viewDate) transactions.

Definition stats (currentMonthTransactions : list Transaction.t)
  (monthlyBudget : Qc) (viewDate : JsDate.t) (isCurrentMonth : bool)
  (today : JsDate.t) : DailyStats.t :=
  let totalSpent := sumAmounts (ofType EXPENSE currentMonthTransactions) in
  let totalIncome := sumAmounts (ofType INCOME currentMonthTransactions) in
  let remainingBudget := (monthlyBudget - totalSpent)%Qc in
  let lastDayOfMonth :=
    JsDate.lastDayBefore (JsDate.getFullYear viewDate) (JsDate.getMonth viewDate + 1) in
  let '(daysRemaining, dailyAvailable) :=
    if isCurrentMonth then
      let currentDay := JsDate.getDate today in
      let daysRemaining := Z.max 1 (lastDayOfMonth - currentDay + 1) in
      (daysRemaining, Num.max 0 (remainingBudget / Num.ofZ daysRemaining))
    else (0, 0%Qc) in
  DailyStats.mk daysRemaining dailyAvailable totalSpent totalIncome remainingBudget.

Definition chartData (currentMonthTransactions : list Transaction.t)
  (viewDate : JsDate.t) (isCurrentMonth : bool) (today : JsDate.t)
  : list ChartDataPoint.t :=
  let daysInMonth :=
    JsDate.lastDayBefore (JsDate.getFullYear viewDate) (JsDate.getMonth viewDate + 1) in
  let dayMap := fillDays (initDays daysInMonth) currentMonthTransactions in
  let showUntilDay :=
    if isCurrentMonth then JsDate.getDate today
    else if JsDate.gt viewDate today then 0
    else daysInMonth in
  emit dayMap daysInMonth showUntilDay.

Definition categoryStats (currentMonthTransactions : list Transaction.t)
  : list CategoryData.t :=
  let expenses := ofType EXPENSE currentMonthTransactions in
  let totalExpense := sumAmounts expenses in
  if decide (totalExpense = 0%Qc) then []
  else
    let groupMap := foldl addToGroup Obj.empty expenses in
    JsArray.sort byAmountDesc (toCategory totalExpense <$> Obj.entries groupMap).

(** What a render shows when it computes every cell at the clock value
    [today], as the first render of the page does. *)
Record view := mkView {
  v_stats : DailyStats.t;
  v_chartData : list ChartDataPoint.t;
  v_categoryStats : list CategoryData.t
}.

Definition render (transactions : list Transaction.t) (monthlyBudget : Qc)
  (viewDate today : JsDate.t) : view :=
  let cur := isCurrentMonth viewDate today in
  let cmt := currentMonthTransactions transactions viewDate in
  mkView (stats cmt monthlyBudget viewDate cur today)
         (chartData cmt viewDate cur today)
         (categoryStats cmt).

(** The handlers. [parseFloat] and the conversion of a number to a string
    belong to the language: the handlers are parametric in them. *)
Section Handlers.
Import AppState.
Variable parseFloat : string → option Qc.
Variable numberToString : Qc → string.

Definition changeMonth (offset : Z) (s : AppState.t) : AppState.t :=
  let newDate := viewDate s in
  let newDate := JsDate.setMonth newDate (JsDate.getMonth newDate + offset) in
  setViewDate newDate s.

Definition handleAddTransaction (env : Env.t) (s : AppState.t) : AppState.t :=
  if isEmpty (newTransTitle s) || isEmpty (newTransAmount s) then s
  else match parseFloat (newTransAmount s) with
       | None => s
       | Some amount =>
           if decide (amount ≤ 0)%Qc then s
           else
             let s1 := setTransactions (λ prev, newTransaction s env amount :: prev) s in
             let s2 := setNewTransTitle "" s1 in
             let s3 := setNewTransAmount "" s2 in
             if Env.isCurrentMonth env then s3
             else setViewDate (Env.newDate env) s3
       end.

Definition handleDelete (id : string) (s : AppState.t) : AppState.t :=
  setTransactions (λ prev, filter (λ t, Transaction.id t ≠ id) prev) s.

Definition saveBudget (s : AppState.t) : AppState.t :=
  match parseFloat (tempBudgetInput s) with
  | Some val =>
      if decide (0 < val)%Qc
      then setIsBudgetModalOpen false (setMonthlyBudget val s)
      else s
  | None => s
  end.

(** The [onClick] of the header button and of the budget card. *)
Definition openBudget (s : AppState.t) : AppState.t :=
  setIsBudgetModalOpen true
    (setTempBudgetInput (numberToString (monthlyBudget s)) s).

End Handlers.

End App.

(** ** [App.tsx], the older version: the month of today only *)

Module AppOld.
Import Shared.

Definition currentMonthStr (today : JsDate.t) : string := monthStr today.

Definition currentMonthTransactions (transactions : list Transaction.t)
  (today : JsDate.t) : list Transaction.t :=
  inMonth (currentMonthStr today) transactions.

Definition stats (currentMonthTransactions : list Transaction.t)
  (monthlyBudget : Qc) (today : JsDate.t) : DailyStats.t :=
  let totalSpent := sumAmounts (ofType EXPENSE currentMonthTransactions) in
  let totalIncome := sumAmounts (ofType INCOME currentMonthTransactions) in
  let remainingBudget := (monthlyBudget - totalSpent)%Qc in
  let lastDayOfMonth :=
    JsDate.lastDayBefore (JsDate.getFullYear today) (JsDate.getMonth today + 1) in
  let currentDay := JsDate.getDate today in
  let daysRemaining := Z.max 1 (lastDayOfMonth - currentDay + 1) in
  let dailyAvailable := Num.max 0 (remainingBudget / Num.ofZ daysRemaining) in
  DailyStats.mk daysRemaining dailyAvailable totalSpent totalIncome remainingBudget.

Definition chartData (currentMonthTransactions : list Transaction.t)
  (today : JsDate.t) : list ChartDataPoint.t :=
  let daysInMonth :=
    JsDate.lastDayBefore (JsDate.getFullYear today) (JsDate.getMonth today + 1) in
  let dayMap := fillDays (initDays daysInMonth) currentMonthTransactions in
  emit dayMap daysInMonth (JsDate.getDate today).

Definition categoryStats (currentMonthTransactions : list Transaction.t)
  : list CategoryData.t :=
  let expenses := ofType EXPENSE currentMonthTransactions in
  let totalExpense := sumAmounts expenses in
  if decide (totalExpense = 0%Qc) then []
  else
    let groupMap := foldl addToGroup Obj.empty expenses in
    JsArray.sort byAmountDesc (toCategory totalExpense <$> Obj.entries groupMap).

Definition render (transactions : list Transaction.t) (monthlyBudget : Qc)
  (today : JsDate.t) : App.view :=
  let cmt := currentMonthTransactions transactions today in
  App.mkView (stats cmt monthlyBudget today) (chartData cmt today) (categoryStats cmt).

Section Handlers.
Import AppState.
Variable parseFloat : string → option Qc.
Variable numberToString : Qc → string.

Definition handleAddTransaction (env : Env.t) (s : AppState.t) : AppState.t :=
  if isEmpty (newTransTitle s) || isEmpty (newTransAmount s) then s
  else match parseFloat (newTransAmount s) with
       | None => s
       | Some amount =>
           if decide (amount ≤ 0)%Qc then s
           else
             let s1 := setTransactions (λ prev, newTransaction s env amount :: prev) s in
             let s2 := setNewTransTitle "" s1 in
             setNewTransAmount "" s2
       end.

Definition handleDelete (id : string) (s : AppState.t) : AppState.t :=
  setTransactions (λ prev, filter (λ t, Transaction.id t ≠ id) prev) s.

Definition saveBudget (s : AppState.t) : AppState.t :=
  match parseFloat (tempBudgetInput s) with
  | Some val =>
      if decide (0 < val)%Qc
      then setIsBudgetModalOpen false (setMonthlyBudget val s)
      else s
  | None => s
  end.

(** The [onClick] of the header button and of the budget card. *)
Definition openBudget (s : AppState.t) : AppState.t :=
  setIsBudgetModalOpen true
    (setTempBudgetInput (numberToString (monthlyBudget s)) s).

End Handlers.

End AppOld.

(** ** The page as a state machine

    The events that write the state, and the handler that each of them
    runs, in the version with month navigation or in the older one (which
    has no navigation). *)

Module Page.

Inductive event :=
  | Submit (env : Env.t)                  (* the form: handleAddTransaction *)
  | ClickDelete (id : string)             (* handleDelete *)
  | ClickSave                             (* saveBudget *)
  | ClickMonth (offset : Z)               (* changeMonth *)
  | OpenBudget
  | CloseBudget
  | TypeTitle (x : string)
  | TypeAmount (x : string)
  | PickType (k : TransactionType)
  | TypeBudget (x : string).

Section Handle.
Import AppState.
Variable parseFloat : string → option Qc.
Variable numberToString : Qc → string.

Definition handle (old : bool) (e : event) (s : AppState.t) : AppState.t :=
  match e with
  | Submit env =>
      if old then AppOld.handleAddTransaction parseFloat env s
      else App.handleAddTransaction parseFloat env s
  | ClickDelete id => if old then AppOld.handleDelete id s else App.handleDelete id s
  | ClickSave =>
      if old then AppOld.saveBudget parseFloat s else App.saveBudget parseFloat s
  | ClickMonth offset => if old then s else App.changeMonth offset s
  | OpenBudget =>
      if old then AppOld.openBudget numberToString s
      else App.openBudget numberToString s
  | CloseBudget => setIsBudgetModalOpen false s
  | TypeTitle x => setNewTransTitle x s
  | TypeAmount x => setNewTransAmount x s
  | PickType k => setNewTransType k s
  | TypeBudget x => setTempBudgetInput x s
  end.

Definition run (old : bool) (es : list event) (s : AppState.t) : AppState.t :=
  foldl (λ s e, handle old e s) s es.

End Handle.

End Page.

(** ** [useMemo] across the renders of the page

    The component function runs at every render; the values of
    [isCurrentMonth], [currentMonthTransactions], [stats], [chartData] and
    [categoryStats] are [useMemo] cells. A cell keeps the dependencies and
    the value of its last computation, and computes its value again only at
    a render at which one dependency is not the one it kept ([Object.is]:
    numbers, strings and booleans by value, arrays and [Date]s by
    identity). The callbacks of the version with month navigation call
    [new Date()] themselves, and the clock is no dependency: a value that is
    not computed again is the one of an earlier reading of the clock. In the
    older version [today] is a new [Date] at every render and a dependency
    of [stats] and [chartData], which are therefore computed at every
    render. After the cells, the text of the page sorts the array
    [currentMonthTransactions] in place for the list that it shows; the
    array keeps its identity. One render reads the clock once. *)

Module Memo.
Import AppState.

Definition useMemo {D V : Type} `{EqDecision D} (compute : V) (deps : D)
  (cell : option (D * V)) : D * V :=
  match cell with
  | Some (deps', v) => if decide (deps' = deps) then (deps', v) else (deps, compute)
  | None => (deps, compute)
  end.

(** The array that the callback of [currentMonthTransactions] returns, with
    its identity. *)
Record array := mkArray { arr_id : nat; arr_items : list Transaction.t }.

(** The cells of the version with month navigation: dependencies, value. *)
Record cells := mkCells {
  c_isCurrentMonth : nat * bool;                          (* [viewDate] *)
  c_currentMonthTransactions : (nat * string) * array;    (* [transactions, currentMonthStr] *)
  c_stats : (nat * Qc * nat * bool) * DailyStats.t;
      (* [currentMonthTransactions, monthlyBudget, viewDate, isCurrentMonth] *)
  c_chartData : (nat * nat * bool) * list ChartDataPoint.t;
      (* [currentMonthTransactions, viewDate, isCurrentMonth] *)
  c_categoryStats : nat * list CategoryData.t             (* [currentMonthTransactions] *)
}.

(** The identity of an array that a render makes. *)
Definition newId (prev : option array) : nat :=
  match prev with
  | Some a => S (arr_id a)
  | None => 0%nat
  end.

(** One render of the version with month navigation, at the clock value
    [now], from the state and the cells of the render before ([None] at the
    first render). *)
Definition render (now : JsDate.t) (s : AppState.t) (prev : option cells) : cells :=
  let isCurrentMonth :=
    useMemo (App.isCurrentMonth (viewDate s) now) (viewDateId s)
      (c_isCurrentMonth <$> prev) in
  let currentMonthStr := App.currentMonthStr (viewDate s) in
  let currentMonthTransactions :=
    useMemo
      (mkArray (newId ((λ c, (c_currentMonthTransactions c).2) <$> prev))
         (App.currentMonthTransactions (transactions s) (viewDate s)))
      (transactionsId s, currentMonthStr)
      (c_currentMonthTransactions <$> prev) in
  let cmt := currentMonthTransactions.2 in
  let stats :=
    useMemo
      (App.stats (arr_items cmt) (monthlyBudget s) (viewDate s) isCurrentMonth.2 now)
      (arr_id cmt, monthlyBudget s, viewDateId s, isCurrentMonth.2)
      (c_stats <$> prev) in
  let chartData :=
    useMemo (App.chartData (arr_items cmt) (viewDate s) isCurrentMonth.2 now)
      (arr_id cmt, viewDateId s, isCurrentMonth.2)
      (c_chartData <$> prev) in
  let categoryStats :=
    useMemo (App.categoryStats (arr_items cmt)) (arr_id cmt)
      (c_categoryStats <$> prev) in
  (* [currentMonthTransactions.sort((a, b) => b.timestamp - a.timestamp)] *)
  let sorted :=
    mkArray (arr_id cmt) (JsArray.sort Shared.byTimestampDesc (arr_items cmt)) in
  mkCells isCurrentMonth (currentMonthTransactions.1, sorted)
    stats chartData categoryStats.

(** What the page shows of the cells. *)
Definition view (c : cells) : App.view :=
  App.mkView (c_stats c).2 (c_chartData c).2 (c_categoryStats c).2.

(** The cells of the older version; [stats] and [chartData] are computed at
    every render. *)
Record cellsOld := mkCellsOld {
  o_currentMonthTransactions : (nat * string) * array;    (* [transactions, currentMonthStr] *)
  o_stats : DailyStats.t;
  o_chartData : list ChartDataPoint.t;
  o_categoryStats : nat * list CategoryData.t             (* [currentMonthTransactions] *)
}.

(** One render of the older version. *)
Definition renderOld (now : JsDate.t) (s : AppState.t) (prev : option cellsOld)
  : cellsOld :=
  let today := now in
  let currentMonthStr := AppOld.currentMonthStr today in
  let currentMonthTransactions :=
    useMemo
      (mkArray (newId ((λ c, (o_currentMonthTransactions c).2) <$> prev))
         (AppOld.currentMonthTransactions (transactions s) today))
      (transactionsId s, currentMonthStr)
      (o_currentMonthTransactions <$> prev) in
  let cmt := currentMonthTransactions.2 in
  let stats := AppOld.stats (arr_items cmt) (monthlyBudget s) today in
  let chartData := AppOld.chartData (arr_items cmt) today in
  let categoryStats :=
    useMemo (AppOld.categoryStats (arr_items cmt)) (arr_id cmt)
      (o_categoryStats <$> prev) in
  let sorted :=
    mkArray (arr_id cmt) (JsArray.sort Shared.byTimestampDesc (arr_items cmt)) in
  mkCellsOld (currentMonthTransactions.1, sorted) stats chartData categoryStats.

Definition viewOld (c : cellsOld) : App.view :=
  App.mkView (o_stats c) (o_chartData c) (o_categoryStats c).2.

(** The life of a page: events, which write the state, and renders, which
    write the cells. *)
Inductive step :=
  | Event (e : Page.event)
  | Render (now : JsDate.t).

Record page := mkPage { state : AppState.t; memo : option cells }.
Record pageOld := mkPageOld { stateOld : AppState.t; memoOld : option cellsOld }.

Section Run.
Variable parseFloat : string → option Qc.
Variable numberToString : Qc → string.

(** The handler of the form is the one that the last render made: the
    [isCurrentMonth] that it reads is the value of the cell. *)
Definition closure (p : page) (e : Page.event) : Page.event :=
  match e, memo p with
  | Page.Submit env, Some c =>
      Page.Submit (Env.mk (Env.randomUUID env) (Env.newDate env)
                     (Env.toISOString env) (Env.dateNow env) (c_isCurrentMonth c).2)
  | _, _ => e
  end.

Definition next (p : page) (st : step) : page :=
  match st with
  | Event e =>
      mkPage (Page.handle parseFloat numberToString false (closure p e) (state p))
        (memo p)
  | Render now => mkPage (state p) (Some (render now (state p) (memo p)))
  end.

Definition run (steps : list step) (p : page) : page := foldl next p steps.

Definition nextOld (p : pageOld) (st : step) : pageOld :=
  match st with
  | Event e =>
      mkPageOld (Page.handle parseFloat numberToString true e (stateOld p))
        (memoOld p)
  | Render now =>
      mkPageOld (stateOld p) (Some (renderOld now (stateOld p) (memoOld p)))
  end.

Definition runOld (steps : list step) (p : pageOld) : pageOld :=
  foldl nextOld p steps.

End Run.

(** The cells agree with the state on the calendar day of [today]. The
    dependencies kept by [stats], [chartData] and [categoryStats] are those
    of the render that wrote the cells. A cell whose dependencies are the
    objects that the state holds now has the value that its callback
    computes from them on this day; for [stats] and [chartData] this is
    stated for the cells computed with [isCurrentMonth] true. *)
Definition consistent (today : JsDate.t) (s : AppState.t) (c : cells) : Prop :=
  let viewDep := (c_isCurrentMonth c).1 in
  let flag := (c_isCurrentMonth c).2 in
  let txDep := (c_currentMonthTransactions c).1.1 in
  let str := (c_currentMonthTransactions c).1.2 in
  let cmt := (c_currentMonthTransactions c).2 in
  let budget := (c_stats c).1.1.1.2 in
  let fresh := Shared.inMonth str (transactions s) in
  (c_stats c).1 = (arr_id cmt, budget, viewDep, flag)
  ∧ (c_chartData c).1 = (arr_id cmt, viewDep, flag)
  ∧ (c_categoryStats c).1 = arr_id cmt
  ∧ (viewDep ≤ viewDateId s)%nat
  ∧ (txDep ≤ transactionsId s)%nat
  ∧ (viewDep = viewDateId s → flag = App.isCurrentMonth (viewDate s) today)
  ∧ (txDep = transactionsId s →
     arr_items cmt ≡ₚ fresh
     ∧ (c_categoryStats c).2 = App.categoryStats fresh
     ∧ (viewDep = viewDateId s → flag = true →
        (c_stats c).2 = App.stats fresh budget (viewDate s) true today
        ∧ (c_chartData c).2 = App.chartData fresh (viewDate s) true today)).

Definition consistentOld (s : AppState.t) (c : cellsOld) : Prop :=
  let txDep := (o_currentMonthTransactions c).1.1 in
  let str := (o_currentMonthTransactions c).1.2 in
  let cmt := (o_currentMonthTransactions c).2 in
  let fresh := Shared.inMonth str (transactions s) in
  (o_categoryStats c).1 = arr_id cmt
  ∧ (txDep ≤ transactionsId s)%nat
  ∧ (txDep = transactionsId s →
     arr_items cmt ≡ₚ fresh
     ∧ (o_categoryStats c).2 = AppOld.categoryStats fresh).

(** Every render of the list took place on the calendar day of [today]. *)
Definition rendersOn (today : JsDate.t) (steps : list step) : Prop :=
  Forall (λ st, match st with
                | Render now =>
                    JsDate.getFullYear now = JsDate.getFullYear today
                    ∧ JsDate.getMonth now = JsDate.getMonth today
                    ∧ JsDate.getDate now = JsDate.getDate today
                | Event _ => True
                end) steps.

End Memo.

(** ** The same computations with every division guarded

    [div] fails on a zero divisor. [Guarded.stats] and
    [Guarded.categoryStats] are [stats] and [categoryStats] with each [/]
    replaced by [div]: they return [None] as soon as a division by zero is
    attempted. *)

Module Guarded.
Import Shared.

Definition div (a b : Qc) : option Qc :=
  if decide (b = 0%Qc) then None else Some (a / b)%Qc.

Definition stats (currentMonthTransactions : list Transaction.t)
  (monthlyBudget : Qc) (viewDate : JsDate.t) (isCurrentMonth : bool)
  (today : JsDate.t) : option DailyStats.t :=
  let totalSpent := sumAmounts (ofType EXPENSE currentMonthTransactions) in
  let totalIncome := sumAmounts (ofType INCOME currentMonthTransactions) in
  let remainingBudget := (monthlyBudget - totalSpent)%Qc in
  let lastDayOfMonth :=
    JsDate.lastDayBefore (JsDate.getFullYear viewDate) (JsDate.getMonth viewDate + 1) in
  if isCurrentMonth then
    let currentDay := JsDate.getDate today in
    let daysRemaining := Z.max 1 (lastDayOfMonth - currentDay + 1) in
    q ← div remainingBudget (Num.ofZ daysRemaining);
    Some (DailyStats.mk daysRemaining (Num.max 0 q) totalSpent totalIncome remainingBudget)
  else Some (DailyStats.mk 0 0%Qc totalSpent totalIncome remainingBudget).

Definition stats_old (currentMonthTransactions : list Transaction.t)
  (monthlyBudget : Qc) (today : JsDate.t) : option DailyStats.t :=
  let totalSpent := sumAmounts (ofType EXPENSE currentMonthTransactions) in
  let totalIncome := sumAmounts (ofType INCOME currentMonthTransactions) in
  let remainingBudget := (monthlyBudget - totalSpent)%Qc in
  let lastDayOfMonth :=
    JsDate.lastDayBefore (JsDate.getFullYear today) (JsDate.getMonth today + 1) in
  let currentDay := JsDate.getDate today in
  let daysRemaining := Z.max 1 (lastDayOfMonth - currentDay + 1) in
  q ← div remainingBudget (Num.ofZ daysRemaining);
  Some (DailyStats.mk daysRemaining (Num.max 0 q) totalSpent totalIncome remainingBudget).

Definition toCategory (totalExpense : Qc) (e : string * Obj.value)
  : option CategoryData.t :=
  match e.2 with
  | Obj.VNum a =>
      q ← div a totalExpense;
      Some (CategoryData.mk e.1 e.2 (Some (q * Num.ofZ 100)%Qc))
  | Obj.VStr => Some (CategoryData.mk e.1 e.2 None)
  end.

Definition categoryStats (currentMonthTransactions : list Transaction.t)
  : option (list CategoryData.t) :=
  let expenses := ofType EXPENSE currentMonthTransactions in
  let totalExpense := sumAmounts expenses in
  if decide (totalExpense = 0%Qc) then Some []
  else
    let groupMap := foldl addToGroup Obj.empty expenses in
    cats ← mapM (toCategory totalExpense) (Obj.entries groupMap);
    Some (JsArray.sort byAmountDesc cats).

End Guarded.

(** ** The specification's words

    Definitions that follow the text of the specification, to be compared
    with the code. *)

Module Spec.

Definition sum (l : list Qc) : Qc := foldr Qcplus 0%Qc l.

(** Sum of the amounts of the transactions of one kind. *)
Definition total (k : TransactionType) (l : list Transaction.t) : Qc :=
  sum (Transaction.amount <$> filter (λ t, Transaction.type t = k) l).

(** The day of the month of [t] is one of [1..lastDay]. *)
Definition dayWithin (lastDay : Z) (t : Transaction.t) : Prop :=
  match Shared.dayOf t with
  | Some i => 1 ≤ i ≤ lastDay
  | None => False
  end.

Global Instance dayWithin_dec lastDay t : Decision (dayWithin lastDay t).
Proof. unfold dayWithin. destruct (Shared.dayOf t); apply _. Defined.

(** The transactions whose day of the month is one of [1..lastDay]. *)
Definition onDays (lastDay : Z) (l : list Transaction.t) : list Transaction.t :=
  filter (dayWithin lastDay) l.

(** The transactions of one day of the month. *)
Definition onDay (i : Z) (l : list Transaction.t) : list Transaction.t :=
  filter (λ t, Shared.dayOf t = Some i) l.

Definition sumIncome (points : list ChartDataPoint.t) : Qc :=
  sum (ChartDataPoint.income <$> points).

Definition sumExpense (points : list ChartDataPoint.t) : Qc :=
  sum (ChartDataPoint.expense <$> points).

(** The chart point of day [i]: its label and the two totals of the day. *)
Definition chartPoint (l : list Transaction.t) (i : Z) : ChartDataPoint.t :=
  ChartDataPoint.mk (Str.ofZ i +:+ "日")
    (total INCOME (onDay i l)) (total EXPENSE (onDay i l)).

(** Sum of the amounts of the transactions with one title. *)
Definition titleTotal (k : string) (l : list Transaction.t) : Qc :=
  sum (Transaction.amount <$> filter (λ t, Transaction.title t = k) l).

(** The slice of a title: [percentage = 100 * categoryTotal / totalExpense]. *)
Definition slice (l : list Transaction.t) (k : string) : CategoryData.t :=
  CategoryData.mk k (Obj.VNum (titleTotal k l))
    (Some (Num.ofZ 100 * titleTotal k l / sum (Transaction.amount <$> l))%Qc).

(** The distinct elements of a list, in the order of their first occurrence. *)
Fixpoint firstSeen_go (seen : list string) (l : list string) : list string :=
  match l with
  | [] => []
  | k :: l' =>
      if decide (k ∈ seen) then firstSeen_go seen l'
      else k :: firstSeen_go (k :: seen) l'
  end.

Definition firstSeen (l : list string) : list string := firstSeen_go [] l.

(** The category breakdown as the specification words it: the expenses
    grouped by title, the groups in first-encountered order, sorted by a
    stable sort in descending order of amount; empty when the total is 0. *)
Definition categoryBreakdown (l : list Transaction.t) : list CategoryData.t :=
  let expenses := filter (λ t, Transaction.type t = EXPENSE) l in
  if decide (total EXPENSE l = 0%Qc) then []
  else JsArray.sort Shared.byAmountDesc
         (slice expenses <$> firstSeen (Transaction.title <$> expenses)).

(** Position of the first occurrence of [k] in [l]. *)
Fixpoint position (k : string) (l : list string) : nat :=
  match l with
  | [] => 0
  | k' :: l' => if decide (k' = k) then 0 else S (position k l')
  end.

(** The order in which an object lists its keys: array indices first, in
    ascending numeric order, then the other keys in the order of their first
    occurrence in [titles]. *)
Definition keyBefore (titles : list string) (k1 k2 : string) : Prop :=
  match Obj.arrayIndex k1, Obj.arrayIndex k2 with
  | Some a, Some b => a < b
  | Some _, None => True
  | None, Some _ => False
  | None, None => (position k1 titles < position k2 titles)%nat
  end.

(** The two dates are in one calendar month. *)
Definition sameMonth (a b : JsDate.t) : Prop :=
  JsDate.getFullYear a = JsDate.getFullYear b
  ∧ JsDate.getMonth a = JsDate.getMonth b.

(** The month of [a] is strictly after the month of [b]. *)
Definition monthAfter (a b : JsDate.t) : Prop :=
  JsDate.getFullYear b < JsDate.getFullYear a
  ∨ (JsDate.getFullYear a = JsDate.getFullYear b
     ∧ JsDate.getMonth b < JsDate.getMonth a).

(** The time values of the two dates follow the calendar: the date in the
    later month is the later one. *)
Definition chronological (a b : JsDate.t) : Prop :=
  (monthAfter a b → JsDate.getTime b < JsDate.getTime a)
  ∧ (monthAfter b a → JsDate.getTime a < JsDate.getTime b).

(** The two dates are one calendar day. *)
Definition sameDay (a b : JsDate.t) : Prop :=
  JsDate.getFullYear a = JsDate.getFullYear b
  ∧ JsDate.getMonth a = JsDate.getMonth b
  ∧ JsDate.getDate a = JsDate.getDate b.

(** *** The calendar, as a table *)

Definition leapYear (y : Z) : Prop :=
  (y mod 4 = 0 ∧ y mod 100 ≠ 0) ∨ y mod 400 = 0.

Global Instance leapYear_dec y : Decision (leapYear y).
Proof. unfold leapYear. apply _. Defined.

(** Days of the month with index [m] (January is 0) of the year [y]. *)
Definition daysInMonth (y m : Z) : Z :=
  default 0
    ([31; if decide (leapYear y) then 29 else 28; 31; 30; 31; 30;
      31; 31; 30; 31; 30; 31] !! Z.to_nat m).

(** The fields of the [Date] are a day of the calendar, in a year that the
    [Date] constructor does not read as 19xx (it does so for the years 0 to
    99). *)
Definition calendarDate (d : JsDate.t) : Prop :=
  0 ≤ JsDate.getMonth d ≤ 11
  ∧ 1 ≤ JsDate.getDate d ≤ daysInMonth (JsDate.getFullYear d) (JsDate.getMonth d)
  ∧ ¬ (0 ≤ JsDate.getFullYear d ≤ 99).

(** The last day on the chart: today in the current month, none in a
    strictly future month, the last day of the month in a past month. *)
Definition lastShownDay (viewDate today : JsDate.t) : Z :=
  if decide (sameMonth viewDate today) then JsDate.getDate today
  else if decide (monthAfter viewDate today) then 0
  else daysInMonth (JsDate.getFullYear viewDate) (JsDate.getMonth viewDate).

(** The amount of a slice as a number (0 when it is not one). *)
Definition amountOf (c : CategoryData.t) : Qc :=
  match CategoryData.amount c with
  | Obj.VNum a => a
  | Obj.VStr => 0%Qc
  end.

(** The amount of the slice is a number. *)
Definition numeric (c : CategoryData.t) : Prop :=
  ∃ a, CategoryData.amount c = Obj.VNum a.

(** The groups of a list of expenses: one per title, in first-encountered
    order, with the sum of the amounts of the title. *)
Definition groups (l : list Transaction.t) : list (string * Obj.value) :=
  (λ k, (k, Obj.VNum (titleTotal k l))) <$> firstSeen (Transaction.title <$> l).

(** No title is the name of a member of [Object.prototype]. *)
Definition plainTitles (l : list Transaction.t) : Prop :=
  Forall (λ t, Transaction.title t ∉ Obj.prototypeKeys) l.

(** A slice with its numbers as fractions in lowest terms; [None] for an
    amount that is a string and for a percentage that is [NaN]. *)
Definition readable (c : CategoryData.t) : string * option Q * option Q :=
  (CategoryData.name c,
   match CategoryData.amount c with
   | Obj.VNum a => Some (this a)
   | Obj.VStr => None
   end,
   this <$> CategoryData.percentage c).

(** Percentages of a breakdown, [None] when one of them is [NaN]. *)
Definition sumPercentages (cats : list CategoryData.t) : option Qc :=
  sum <$> mapM CategoryData.percentage cats.

(** *** The day of the month of a date

    The date of a transaction is a string [YYYY-MM-DD]: ten characters,
    all of them digits but the two hyphens. Its day of the month is the
    number that the last two digits write. These definitions read the date
    by position; they share nothing with the code, which splits the string
    and calls [parseInt]. *)

Definition isDigit (c : ascii) : bool :=
  bool_decide (48 ≤ nat_of_ascii c ≤ 57)%nat.

Definition digitValue (c : ascii) : Z := Z.of_nat (nat_of_ascii c) - 48.

Definition isoDay (s : string) : option Z :=
  match s with
  | String y1 (String y2 (String y3 (String y4 (String h1
      (String m1 (String m2 (String h2 (String d1 (String d2 EmptyString))))))))) =>
      if forallb isDigit [y1; y2; y3; y4; m1; m2; d1; d2]
         && bool_decide (h1 = "-"%char) && bool_decide (h2 = "-"%char)
      then Some (10 * digitValue d1 + digitValue d2)
      else None
  | _ => None
  end.

Definition isIsoDate (s : string) : Prop := is_Some (isoDay s).

Global Instance isIsoDate_dec s : Decision (isIsoDate s).
Proof. unfold isIsoDate. apply _. Defined.

(** Every transaction of the list is dated by a string [YYYY-MM-DD]. *)
Definition isoDated (l : list Transaction.t) : Prop :=
  Forall (λ t, isIsoDate (Transaction.date t)) l.

(** Sum of the amounts of the transactions of kind [k] dated on day [i] of
    the month. *)
Definition dayTotal (k : TransactionType) (i : Z) (l : list Transaction.t) : Qc :=
  sum (Transaction.amount
         <$> filter (λ t, Transaction.type t = k
                          ∧ isoDay (Transaction.date t) = Some i) l).

(** The chart point of day [i]: the label [i日], the income and the expense
    of the day. *)
Definition dayPoint (l : list Transaction.t) (i : Z) : ChartDataPoint.t :=
  ChartDataPoint.mk (pretty i +:+ "日") (dayTotal INCOME i l) (dayTotal EXPENSE i l).

(** The transaction is dated on one of the days 1 to [n] of the month. *)
Definition datedWithin (n : Z) (t : Transaction.t) : Prop :=
  match isoDay (Transaction.date t) with
  | Some i => 1 ≤ i ≤ n
  | None => False
  end.

Global Instance datedWithin_dec n t : Decision (datedWithin n t).
Proof. unfold datedWithin. destruct (isoDay (Transaction.date t)); apply _. Defined.

(** [max(0, q)], written out. *)
Definition atLeastZero (q : Qc) : Qc := if decide (0 ≤ q)%Qc then q else 0%Qc.

End Spec.

(** ** Data of the examples *)

Module Ex.

Definition tx (title : string) (amount : Z) (k : TransactionType) (date : string)
  : Transaction.t :=
  Transaction.mk "id" title (Num.ofZ amount) k date 0.

(** 10 June 2024, and the months around it. *)
Definition june10 : JsDate.t := JsDate.atMidnight 2024 5 10.
Definition may10 : JsDate.t := JsDate.atMidnight 2024 4 10.
Definition july10 : JsDate.t := JsDate.atMidnight 2024 6 10.

(** The scenario of the specification for the statistics: an expense of
    100 on day 1, an income of 50 on day 2, seen on day 2 of a month of 30
    days. *)
Definition june2 : JsDate.t := JsDate.atMidnight 2024 5 2.
Definition expenseIncome : list Transaction.t :=
  [tx "Rent" 100 EXPENSE "2024-06-01"; tx "Gift" 50 INCOME "2024-06-02"].

(** An income dated after the 10th of June. *)
Definition lateIncome : list Transaction.t :=
  [tx "Salary" 50 INCOME "2024-06-20"].

(** The scenario of the specification: two expenses of one title and one of
    another. *)
Definition coffeeTea : list Transaction.t :=
  [tx "Coffee" 30 EXPENSE "2024-06-01"; tx "Coffee" 20 EXPENSE "2024-06-02";
   tx "Tea" 10 EXPENSE "2024-06-02"].

(** Two titles that are array indices, with equal amounts. *)
Definition numericTitles : list Transaction.t :=
  [tx "2" 10 EXPENSE "2024-06-01"; tx "1" 10 EXPENSE "2024-06-02"].

(** A title that is the name of a member of [Object.prototype]. *)
Definition protoTitle : list Transaction.t :=
  [tx "__proto__" 30 EXPENSE "2024-06-01"; tx "Tea" 10 EXPENSE "2024-06-02"].

(** The form filled with a title and an amount, the budget dialog with a
    new budget. *)
Definition form (title amount budgetInput : string) : AppState.t :=
  AppState.mk coffeeTea (Num.ofZ 1000) june10 title amount EXPENSE true budgetInput
    0 0.

Definition env : Env.t :=
  Env.mk "0b1f" june10 "2024-06-10T08:30:00.000Z" 1718008200000 true.

(** Seven in the morning of 1 July 2024 in a zone eight hours ahead of
    UTC: the page shows July, [toISOString] gives the evening of 30 June. *)
Definition july1_morning : JsDate.t := JsDate.mk 2024 6 1 1719788400000.

Definition envAhead : Env.t :=
  Env.mk "0b1f" july1_morning "2024-06-30T23:00:00.000Z" 1719788400000 true.

Definition formJuly : AppState.t :=
  AppState.mk [] (Num.ofZ 1000) july1_morning "Lunch" "12.50" EXPENSE false "1000"
    0 0.

(** The 11th of June 2024, and a page that stays open from the 10th to the
    11th: it is rendered on the 10th, the user types a letter of a title on
    the 11th, and the page is rendered again. *)
Definition june11 : JsDate.t := JsDate.atMidnight 2024 5 11.

Definition overnight : list Memo.step :=
  [Memo.Render june10; Memo.Event (Page.TypeTitle "L"); Memo.Render june11].

(** What the two versions show after it, from the same state. *)
Definition overnightNew : option App.view :=
  Memo.view
    <$> Memo.memo (Memo.run Str.parseFloat (λ _, "1000") overnight
                     (Memo.mkPage (form "" "" "1000") None)).

Definition overnightOld : option App.view :=
  Memo.viewOld
    <$> Memo.memoOld (Memo.runOld Str.parseFloat (λ _, "1000") overnight
                        (Memo.mkPageOld (form "" "" "1000") None)).

(** A title that is the name of a function of [Object.prototype]. *)
Definition constructorTitle : list Transaction.t :=
  [tx "constructor" 30 EXPENSE "2024-06-01"; tx "Tea" 10 EXPENSE "2024-06-02"].

End Ex.

(** * The functions at work *)

Example split_date : Str.split "-" "2024-06-09" = ["2024"; "06"; "09"].
Proof. reflexivity. Qed.

Example split_no_separator : Str.split "-" "20240609" = ["20240609"].
Proof. reflexivity. Qed.

Example parseInt_day : Str.parseInt "09" = Some 9.
Proof. reflexivity. Qed.

Example parseInt_prefix : Str.parseInt " 12th" = Some 12.
Proof. reflexivity. Qed.

Example parseInt_hex : Str.parseInt "0x1F" = Some 31.
Proof. reflexivity. Qed.

Example parseInt_NaN : Str.parseInt "" = None.
Proof. reflexivity. Qed.

Example monthStr_june : Shared.monthStr Ex.june10 = "2024-06".
Proof. vm_compute. reflexivity. Qed.

Example dayOf_date : Shared.dayOf (Ex.tx "Tea" 10 EXPENSE "2024-06-09") = Some 9.
Proof. reflexivity. Qed.

Example dayOf_missing : Shared.dayOf (Ex.tx "Tea" 10 EXPENSE "2024-06") = None.
Proof. reflexivity. Qed.

Example currentMonthTransactions_june :
  App.currentMonthTransactions
    (Ex.tx "Old" 5 EXPENSE "2024-05-31" :: Ex.coffeeTea) Ex.june10
  = Ex.coffeeTea.
Proof. vm_compute. reflexivity. Qed.

Example arrayIndex_canonical :
  Obj.arrayIndex "7" = Some 7 ∧ Obj.arrayIndex "07" = None
  ∧ Obj.arrayIndex "4294967294" = Some 4294967294
  ∧ Obj.arrayIndex "4294967295" = None ∧ Obj.arrayIndex "Tea" = None.
Proof. split_and!; vm_compute; reflexivity. Qed.

Example lastDay_february :
  JsDate.lastDayBefore 2024 2 = 29 ∧ JsDate.lastDayBefore 2023 2 = 28
  ∧ JsDate.lastDayBefore 2024 12 = 31.
Proof. split_and!; reflexivity. Qed.

Example fromDays_june10 : JsDate.fromDays 19884 = (2024, 5, 10).
Proof. reflexivity. Qed.

Example fromDays_epoch :
  JsDate.fromDays 0 = (1970, 0, 1) ∧ JsDate.fromDays (-1) = (1969, 11, 31)
  ∧ JsDate.fromDays 11016 = (2000, 1, 29).
Proof. split_and!; reflexivity. Qed.

Example changeMonth_next :
  JsDate.setMonth Ex.june10 (5 + 1) = Ex.july10
  ∧ JsDate.setMonth Ex.june10 (5 - 1) = Ex.may10
  ∧ JsDate.setMonth (JsDate.atMidnight 2024 11 15) (11 + 1)
    = JsDate.atMidnight 2025 0 15
  ∧ JsDate.setMonth (JsDate.atMidnight 2024 0 15) (0 - 1)
    = JsDate.atMidnight 2023 11 15.
Proof. split_and!; reflexivity. Qed.

(** A day past the end of the new month goes to the month after. *)
Example changeMonth_overflow :
  JsDate.setMonth (JsDate.atMidnight 2024 0 31) (0 + 1)
  = JsDate.atMidnight 2024 2 2.
Proof. reflexivity. Qed.

(** The scenario of the specification: budget 1000, day 2 of June. *)
Example stats_scenario :
  let s := App.v_stats (App.render Ex.expenseIncome (Num.ofZ 1000) Ex.june2 Ex.june2) in
  this (DailyStats.totalSpentThisMonth s) = 100%Q
  ∧ this (DailyStats.totalIncomeThisMonth s) = 50%Q
  ∧ this (DailyStats.remainingBudget s) = 900%Q
  ∧ DailyStats.daysRemaining s = 29
  ∧ this (DailyStats.dailyAvailable s) = (900 # 29)%Q.
Proof. cbv zeta. split_and!; vm_compute; reflexivity. Qed.

(** * Supporting lemmas *)

(** ** Sums of rationals *)

Section Sums.
Local Open Scope Qc_scope.

Lemma sum_cons (x : Qc) (l : list Qc) : Spec.sum (x :: l) = x + Spec.sum l.
Proof. reflexivity. Qed.

Lemma sum_app (l1 l2 : list Qc) :
  Spec.sum (l1 ++ l2) = Spec.sum l1 + Spec.sum l2.
Proof.
  induction l1 as [|x l1 IH]; simpl.
  - by rewrite Qcplus_0_l.
  - rewrite IH. ring.
Qed.

Lemma sum_fmap_plus {A} (f g : A → Qc) (l : list A) :
  Spec.sum ((λ i, f i + g i) <$> l) = Spec.sum (f <$> l) + Spec.sum (g <$> l).
Proof.
  induction l as [|i l IH]; [by rewrite !fmap_nil; cbn; ring|].
  rewrite !fmap_cons, !sum_cons, IH. ring.
Qed.

Lemma sum_fmap_zero {A} (l : list A) : Spec.sum ((λ _, 0) <$> l) = 0.
Proof.
  induction l as [|i l IH]; [done|].
  rewrite fmap_cons, sum_cons, IH. ring.
Qed.

Lemma sum_fmap_scale {A} (a b : Qc) (f : A → Qc) (l : list A) :
  Spec.sum ((λ k, a * f k / b) <$> l) = a * Spec.sum (f <$> l) / b.
Proof.
  induction l as [|k l IH].
  - cbn. unfold Qcdiv. ring.
  - rewrite !fmap_cons, !sum_cons, IH. unfold Qcdiv. ring.
Qed.

(** A sum that picks the one index [j] of a list without repetition. *)
Lemma sum_indicator `{EqDecision A} (x : Qc) (j : A) (l : list A) :
  NoDup l →
  Spec.sum ((λ i, if decide (j = i) then x else 0) <$> l)
  = if decide (j ∈ l) then x else 0.
Proof.
  induction 1 as [|i l Hi Hl IH]; [done|].
  rewrite fmap_cons, sum_cons, IH.
  destruct (decide (j = i)) as [->|Hne].
  - rewrite (decide_False (P := i ∈ l)) by done.
    rewrite decide_True by apply list_elem_of_here. ring.
  - destruct (decide (j ∈ l)) as [Hin|Hin].
    + rewrite decide_True by (by apply list_elem_of_further). ring.
    + rewrite decide_False; [ring|].
      intros [?|?]%elem_of_cons; done.
Qed.

Lemma sum_Permutation (l1 l2 : list Qc) : l1 ≡ₚ l2 → Spec.sum l1 = Spec.sum l2.
Proof.
  induction 1 as [|x l1 l2 _ IH|x y l|l1 l2 l3 _ IH1 _ IH2].
  - done.
  - by rewrite !sum_cons, IH.
  - rewrite !sum_cons. ring.
  - by rewrite IH1.
Qed.

Lemma foldl_amounts (a : Qc) (l : list Transaction.t) :
  foldl (λ sum t, sum + Transaction.amount t) a l
  = a + Spec.sum (Transaction.amount <$> l).
Proof.
  revert a. induction l as [|t l IH]; intros a.
  - simpl. ring.
  - rewrite fmap_cons, sum_cons. cbn [foldl]. rewrite IH. ring.
Qed.

(** The [reduce] of the source computes the sum of the amounts. *)
Lemma sumAmounts_sum (l : list Transaction.t) :
  Shared.sumAmounts l = Spec.sum (Transaction.amount <$> l).
Proof. unfold Shared.sumAmounts. rewrite foldl_amounts. ring. Qed.

Lemma sumAmounts_ofType (k : TransactionType) (l : list Transaction.t) :
  Shared.sumAmounts (Shared.ofType k l) = Spec.total k l.
Proof. apply sumAmounts_sum. Qed.

Lemma total_nil k : Spec.total k [] = 0.
Proof. reflexivity. Qed.

Lemma total_cons k t l :
  Spec.total k (t :: l)
  = (if decide (Transaction.type t = k) then Transaction.amount t else 0)
    + Spec.total k l.
Proof.
  unfold Spec.total. rewrite filter_cons.
  destruct (decide (Transaction.type t = k));
    rewrite ?fmap_cons, ?sum_cons; ring.
Qed.

Lemma orZero_id x : Shared.orZero x = x.
Proof. unfold Shared.orZero. by case_decide. Qed.

(** Closed equations between rationals, by computation. *)
(** Closed equations between rationals, by computation. *)
Lemma Qc_eq_by_value (a b : Qc) : Qeq_bool (this a) (this b) = true → a = b.
Proof. intros H. apply Qc_is_canon. by apply Qeq_bool_iff. Qed.

Lemma Qc_neq_by_value (a b : Qc) : Qeq_bool (this a) (this b) = false → a ≠ b.
Proof.
  intros H Heq. subst b.
  assert (Qeq_bool (this a) (this a) = true) by (apply Qeq_bool_iff; reflexivity).
  congruence.
Qed.

End Sums.

Ltac by_value :=
  lazymatch goal with
  | |- @eq Qc ?a ?b => apply (Qc_eq_by_value a b); vm_compute; reflexivity
  | |- not (@eq Qc ?a ?b) => apply (Qc_neq_by_value a b); vm_compute; reflexivity
  | |- @eq Qc ?a ?b → False =>
      apply (Qc_neq_by_value a b); vm_compute; reflexivity
  end.

(** ** Lists *)

Lemma filter_all {A} (P : A → Prop) `{∀ x, Decision (P x)} (l : list A) :
  Forall P l → filter P l = l.
Proof.
  induction 1 as [|x l Hx _ IH]; [done|].
  by rewrite filter_cons_True, IH.
Qed.

Lemma filter_none {A} (P : A → Prop) `{∀ x, Decision (P x)} (l : list A) :
  Forall (λ x, ¬ P x) l → filter P l = [].
Proof.
  induction 1 as [|x l Hx _ IH]; [done|].
  by rewrite filter_cons_False.
Qed.

Lemma seqZ_max0 (m n : Z) : seqZ m (Z.max 0 n) = seqZ m n.
Proof.
  destruct (decide (0 ≤ n)).
  - by rewrite Z.max_r.
  - by rewrite Z.max_l, !seqZ_nil by lia.
Qed.

Lemma filter_le_seqZ (n u : Z) :
  filter (λ i, i ≤ u) (seqZ 1 n) = seqZ 1 (Z.min n u).
Proof.
  destruct (decide (n ≤ u)) as [Hnu|Hnu].
  - rewrite Z.min_l by done.
    apply filter_all, Forall_seqZ. intros. lia.
  - destruct (decide (u ≤ 0)) as [Hu|Hu].
    + rewrite (seqZ_nil _ (Z.min n u)) by lia.
      apply filter_none, Forall_seqZ. intros. lia.
    + rewrite Z.min_r by lia.
      replace n with (u + (n - u)) at 1 by lia.
      rewrite seqZ_app by lia. rewrite filter_app.
      rewrite filter_all by (apply Forall_seqZ; intros; lia).
      rewrite filter_none by (apply Forall_seqZ; intros; lia).
      by rewrite app_nil_r.
Qed.

Lemma NoDup_fmap_inj_on {A B} (f : A → B) (l : list A) (x y : A) :
  NoDup (f <$> l) → x ∈ l → y ∈ l → f x = f y → x = y.
Proof.
  induction l as [|z l IH]; [by intros _ ?%elem_of_nil|].
  rewrite fmap_cons, NoDup_cons.
  intros [Hz Hl] [->|Hx]%elem_of_cons [->|Hy]%elem_of_cons Heq; try done.
  - exfalso. apply Hz. rewrite Heq. by apply list_elem_of_fmap_2.
  - exfalso. apply Hz. rewrite <- Heq. by apply list_elem_of_fmap_2.
  - by apply IH.
Qed.

Section StronglySorted.
Context {A : Type}.

Lemma StronglySorted_impl_elem (R R' : relation A) (l : list A) :
  (∀ x y, x ∈ l → y ∈ l → R x y → R' x y) →
  StronglySorted R l → StronglySorted R' l.
Proof.
  intros Himpl Hl. induction Hl as [|x l Hl IH Hx]; constructor.
  - apply IH. intros y z Hy Hz. apply Himpl; by apply list_elem_of_further.
  - rewrite Forall_forall in *. intros y Hy.
    apply Himpl; [apply list_elem_of_here|by apply list_elem_of_further|auto].
Qed.

Lemma StronglySorted_filter (R : relation A) (P : A → Prop)
  `{∀ x, Decision (P x)} (l : list A) :
  StronglySorted R l → StronglySorted R (filter P l).
Proof.
  induction 1 as [|x l Hl IH Hx]; [constructor|].
  rewrite filter_cons. case_decide; [|done].
  constructor; [done|].
  rewrite Forall_forall in *. intros y [_ Hy]%list_elem_of_filter. auto.
Qed.

End StronglySorted.

(** ** The calendar *)

(** For a month index from 0 to 11 and a year that the constructor does not
    read as 19xx, [new Date(y, m + 1, 0).getDate()] is the length of the
    month. *)
Lemma lastDayBefore_monthLength (y m : Z) :
  0 ≤ m ≤ 11 → ¬ (0 ≤ y ≤ 99) →
  JsDate.lastDayBefore y (m + 1) = JsDate.monthLength y m.
Proof.
  intros Hm Hy. unfold JsDate.lastDayBefore.
  rewrite (bool_decide_eq_false_2 (0 ≤ y ≤ 99) Hy).
  destruct (decide (m = 11)) as [->|Hne].
  - change ((11 + 1) `mod` 12) with 0. change ((11 + 1) `div` 12) with 1.
    rewrite bool_decide_eq_true_2 by done. f_equal; lia.
  - assert ((m + 1) / 12 = 0) as -> by (apply Z.div_small; lia).
    assert ((m + 1) mod 12 = m + 1) as -> by (apply Z.mod_small; lia).
    case_bool_decide; [lia|].
    f_equal; lia.
Qed.

Lemma monthLength_bounds (y m : Z) : 28 ≤ JsDate.monthLength y m ≤ 31.
Proof.
  unfold JsDate.monthLength.
  repeat (case_match; try lia).
Qed.

Lemma lastDayBefore_bounds (y m : Z) : 28 ≤ JsDate.lastDayBefore y m ≤ 31.
Proof.
  unfold JsDate.lastDayBefore. case_bool_decide; apply monthLength_bounds.
Qed.

Lemma isCurrentMonth_sameMonth (viewDate today : JsDate.t) :
  App.isCurrentMonth viewDate today = true ↔ Spec.sameMonth viewDate today.
Proof.
  unfold App.isCurrentMonth, Spec.sameMonth.
  rewrite andb_true_iff, !bool_decide_eq_true. tauto.
Qed.

Lemma isCurrentMonth_decide (viewDate today : JsDate.t) :
  App.isCurrentMonth viewDate today
  = bool_decide (Spec.sameMonth viewDate today).
Proof.
  apply eq_true_iff_eq.
  rewrite isCurrentMonth_sameMonth, bool_decide_eq_true. done.
Qed.

(** Two months are the same, or one is after the other. *)
Lemma month_trichotomy (a b : JsDate.t) :
  Spec.sameMonth a b ∨ Spec.monthAfter a b ∨ Spec.monthAfter b a.
Proof. unfold Spec.sameMonth, Spec.monthAfter. lia. Qed.

Lemma monthAfter_asym (a b : JsDate.t) :
  Spec.monthAfter a b → ¬ Spec.monthAfter b a.
Proof. unfold Spec.monthAfter. lia. Qed.

Lemma monthAfter_not_same (a b : JsDate.t) :
  Spec.monthAfter a b → ¬ Spec.sameMonth a b.
Proof. unfold Spec.sameMonth, Spec.monthAfter. lia. Qed.

(** Outside the current month, [viewDate > today] tells a future month
    from a past one. *)
Lemma gt_monthAfter (viewDate today : JsDate.t) :
  Spec.chronological viewDate today → ¬ Spec.sameMonth viewDate today →
  JsDate.gt viewDate today = bool_decide (Spec.monthAfter viewDate today).
Proof.
  intros [Hfut Hpast] Hne. unfold JsDate.gt.
  destruct (month_trichotomy viewDate today) as [?|[Ha|Hb]]; [done| |].
  - rewrite !bool_decide_eq_true_2; auto.
  - rewrite !bool_decide_eq_false_2; [done| |].
    + by apply monthAfter_asym.
    + specialize (Hpast Hb). lia.
Qed.

(** ** The day map of [chartData] *)

Section DayMap.
Import Shared.
Local Open Scope Qc_scope.

Local Abbreviation zero := (mkBucket 0 0).

Lemma initDays_zero (n : Z) (k : option Z) :
  default zero (initDays n !! k) = zero.
Proof.
  unfold initDays.
  assert (∀ l (m : dayMap), default zero (m !! k) = zero →
    default zero (foldl (λ m i, <[Some i := mkBucket 0 0]> m) m l !! k) = zero)
    as H.
  { induction l as [|i l IH]; intros m Hm; [done|].
    simpl. apply IH.
    destruct (decide (Some i = k)) as [->|Hne].
    - by rewrite lookup_insert_eq.
    - by rewrite lookup_insert_ne. }
  apply H. by rewrite lookup_empty.
Qed.

(** Days 1 to [n] are keys of the initial map. *)
Lemma initDays_is_Some (n i : Z) :
  (1 ≤ i ≤ n)%Z → is_Some (initDays n !! Some i).
Proof.
  intros Hi. unfold initDays.
  assert (∀ l (m : dayMap), i ∈ l ∨ is_Some (m !! Some i) →
    is_Some (foldl (λ m i, <[Some i := mkBucket 0 0]> m) m l !! Some i)) as H.
  { induction l as [|j l IH]; intros m Hm.
    - destruct Hm as [Hm|Hm]; [by apply elem_of_nil in Hm|done].
    - simpl. apply IH.
      destruct (decide (j = i)) as [->|Hne].
      + right. by rewrite lookup_insert_eq.
      + destruct Hm as [Hm|Hm].
        * left. apply elem_of_cons in Hm as [?|?]; [congruence|done].
        * right. rewrite lookup_insert_ne; [done|congruence]. }
  apply H. left. apply elem_of_seqZ. lia.
Qed.

Lemma type_not_INCOME (t : Transaction.t) :
  Transaction.type t ≠ INCOME → Transaction.type t = EXPENSE.
Proof. by destruct (Transaction.type t). Qed.

Lemma addToDay_lookup (m : dayMap) (t : Transaction.t) (k : option Z) :
  default zero (addToDay m t !! k)
  = if decide (dayOf t = k)
    then let b := default zero (m !! k) in
         mkBucket
           (b_income b
            + if decide (Transaction.type t = INCOME) then Transaction.amount t else 0)
           (b_expense b
            + if decide (Transaction.type t = EXPENSE) then Transaction.amount t else 0)
    else default zero (m !! k).
Proof.
  unfold addToDay. destruct (decide (dayOf t = k)) as [<-|Hne].
  - rewrite lookup_insert_eq. simpl.
    destruct (decide (Transaction.type t = INCOME)) as [Hi|Hi].
    + rewrite Hi. rewrite decide_False by done. f_equal. ring.
    + rewrite (type_not_INCOME _ Hi). rewrite decide_True by done. f_equal. ring.
  - by rewrite lookup_insert_ne.
Qed.

Lemma fillDays_lookup (l : list Transaction.t) (m : dayMap) (k : option Z) :
  default zero (fillDays m l !! k)
  = let b := default zero (m !! k) in
    let day := filter (λ t, dayOf t = k) l in
    mkBucket (b_income b + Spec.total INCOME day)
             (b_expense b + Spec.total EXPENSE day).
Proof.
  revert m. induction l as [|t l IH]; intros m.
  - simpl. rewrite !total_nil. destruct (default zero (m !! k)).
    simpl. f_equal; ring.
  - unfold fillDays in *. cbn [foldl]. rewrite IH, addToDay_lookup.
    rewrite filter_cons. cbv zeta.
    destruct (decide (dayOf t = k)) as [Hk|Hk].
    + rewrite !total_cons. simpl. f_equal; ring.
    + done.
Qed.

(** A point of the chart carries the two totals of its day. *)
Lemma point_chartPoint (l : list Transaction.t) (n i : Z) :
  point (fillDays (initDays n) l) i = Spec.chartPoint l i.
Proof.
  unfold point, Spec.chartPoint, Spec.onDay. rewrite !orZero_id.
  pose proof (fillDays_lookup l (initDays n) (Some i)) as H.
  rewrite initDays_zero in H. cbv zeta in H. simpl in H.
  destruct (fillDays (initDays n) l !! Some i) as [b|]; simpl in H |- *.
  - rewrite H. simpl. f_equal; ring.
  - pose proof (f_equal b_income H) as H1.
    pose proof (f_equal b_expense H) as H2. simpl in H1, H2.
    f_equal; [etrans; [exact H1|] | etrans; [exact H2|]]; ring.
Qed.

End DayMap.

Lemma emit_foldl {A} (f : Z → A) (u : Z) (l : list Z) (acc : list A) :
  foldl (λ data i, if bool_decide (i ≤ u) then data ++ [f i] else data) acc l
  = acc ++ (f <$> filter (λ i, i ≤ u) l).
Proof.
  revert acc. induction l as [|i l IH]; intros acc; simpl.
  - by rewrite app_nil_r.
  - rewrite IH, filter_cons. case_bool_decide.
    + rewrite decide_True by done. by rewrite <- app_assoc.
    + by rewrite decide_False by done.
Qed.

(** The points emitted are those of the days 1 to [min(daysInMonth, showUntilDay)]. *)
Lemma emit_seqZ (m : Shared.dayMap) (daysInMonth showUntilDay : Z) :
  Shared.emit m daysInMonth showUntilDay
  = Shared.point m <$> seqZ 1 (Z.min daysInMonth showUntilDay).
Proof.
  unfold Shared.emit. rewrite emit_foldl. simpl. by rewrite filter_le_seqZ.
Qed.

(** The chart is the list of the points of the days 1 to
    [min(daysInMonth, showUntilDay)], each with the totals of its day. *)
Lemma chartData_points (subset : list Transaction.t) (viewDate today : JsDate.t)
  (isCurrentMonth : bool) :
  let daysInMonth :=
    JsDate.lastDayBefore (JsDate.getFullYear viewDate) (JsDate.getMonth viewDate + 1) in
  let showUntilDay :=
    if isCurrentMonth then JsDate.getDate today
    else if JsDate.gt viewDate today then 0 else daysInMonth in
  App.chartData subset viewDate isCurrentMonth today
  = Spec.chartPoint subset <$> seqZ 1 (Z.min daysInMonth showUntilDay).
Proof.
  intros daysInMonth showUntilDay. unfold App.chartData.
  rewrite emit_seqZ. apply list_fmap_ext. intros _ i _.
  apply point_chartPoint.
Qed.

Lemma chartPoint_nil (i : Z) :
  Spec.chartPoint [] i = ChartDataPoint.mk (Str.ofZ i +:+ "日") 0%Qc 0%Qc.
Proof. reflexivity. Qed.

(** ** Summing the chart *)

Section ChartSums.
Local Open Scope Qc_scope.

Lemma dayWithin_seqZ (d : Z) (t : Transaction.t) (i : Z) :
  Shared.dayOf t = Some i → Spec.dayWithin d t ↔ i ∈ seqZ 1 d.
Proof.
  intros Hi. unfold Spec.dayWithin. rewrite Hi, elem_of_seqZ. lia.
Qed.

Lemma total_onDay_cons k i t l :
  Spec.total k (Spec.onDay i (t :: l))
  = (if decide (Some i = Shared.dayOf t)
     then if decide (Transaction.type t = k) then Transaction.amount t else 0
     else 0)
    + Spec.total k (Spec.onDay i l).
Proof.
  unfold Spec.onDay. rewrite filter_cons.
  destruct (decide (Shared.dayOf t = Some i)) as [Hi|Hi].
  - rewrite decide_True by done. by rewrite total_cons.
  - rewrite decide_False by done. ring.
Qed.

Lemma total_onDays_cons k d t l :
  Spec.total k (Spec.onDays d (t :: l))
  = (if decide (Spec.dayWithin d t)
     then if decide (Transaction.type t = k) then Transaction.amount t else 0
     else 0)
    + Spec.total k (Spec.onDays d l).
Proof.
  unfold Spec.onDays. rewrite filter_cons.
  destruct (decide (Spec.dayWithin d t)).
  - by rewrite total_cons.
  - ring.
Qed.

(** The totals of the days 1 to [d] add up to the total of the
    transactions that fall on these days. *)
Lemma sum_day_totals (k : TransactionType) (d : Z) (l : list Transaction.t) :
  Spec.sum ((λ i, Spec.total k (Spec.onDay i l)) <$> seqZ 1 d)
  = Spec.total k (Spec.onDays d l).
Proof.
  induction l as [|t l IH].
  - apply sum_fmap_zero.
  - rewrite total_onDays_cons, <- IH.
    rewrite (list_fmap_ext _ _ _ (λ _ i _, total_onDay_cons k i t l)).
    rewrite (sum_fmap_plus
      (λ i, if decide (Some i = Shared.dayOf t)
            then if decide (Transaction.type t = k)
                 then Transaction.amount t else 0
            else 0)
      (λ i, Spec.total k (Spec.onDay i l))).
    f_equal.
    destruct (Shared.dayOf t) as [j|] eqn:Hj.
    + rewrite (list_fmap_ext _
         (λ i, if decide (j = i)
               then if decide (Transaction.type t = k)
                    then Transaction.amount t else 0
               else 0)).
      2:{ intros _ i _. destruct (decide (j = i)) as [->|Hne].
          - by rewrite decide_True.
          - rewrite decide_False; [done|congruence]. }
      rewrite sum_indicator by apply NoDup_seqZ.
      destruct (decide (j ∈ seqZ 1 d)) as [Hin|Hin];
        destruct (decide (Spec.dayWithin d t)) as [Hw|Hw]; try done;
        exfalso; rewrite (dayWithin_seqZ d t j Hj) in Hw; done.
    + destruct (decide (Spec.dayWithin d t)) as [Hw|Hw].
      { unfold Spec.dayWithin in Hw. by rewrite Hj in Hw. }
      rewrite (list_fmap_ext _ (λ _, 0)); [apply sum_fmap_zero|].
      intros _ i _. by rewrite decide_False.
Qed.

Lemma sumIncome_chartPoints (d : Z) (l : list Transaction.t) :
  Spec.sumIncome (Spec.chartPoint l <$> seqZ 1 d)
  = Spec.total INCOME (Spec.onDays d l).
Proof.
  unfold Spec.sumIncome. rewrite <- list_fmap_compose.
  apply (sum_day_totals INCOME).
Qed.

Lemma sumExpense_chartPoints (d : Z) (l : list Transaction.t) :
  Spec.sumExpense (Spec.chartPoint l <$> seqZ 1 d)
  = Spec.total EXPENSE (Spec.onDays d l).
Proof.
  unfold Spec.sumExpense. rewrite <- list_fmap_compose.
  apply (sum_day_totals EXPENSE).
Qed.

Lemma onDays_max0 (d : Z) (l : list Transaction.t) :
  Spec.onDays (Z.max 0 d) l = Spec.onDays d l.
Proof.
  unfold Spec.onDays. apply list_filter_iff. intros t.
  unfold Spec.dayWithin. destruct (Shared.dayOf t); [lia|done].
Qed.

(** The chart is made of the points of the days 1 to [n], [n] being its
    length, and its sums are the totals of the transactions dated on these
    days. *)
Lemma chart_sums (subset : list Transaction.t) (viewDate today : JsDate.t)
  (isCurrentMonth : bool) :
  let chart := App.chartData subset viewDate isCurrentMonth today in
  let shown := Spec.onDays (Z.of_nat (length chart)) subset in
  chart = Spec.chartPoint subset <$> seqZ 1 (Z.of_nat (length chart))
  ∧ Spec.sumIncome chart = Spec.total INCOME shown
  ∧ Spec.sumExpense chart = Spec.total EXPENSE shown.
Proof.
  intros chart shown.
  pose proof (chartData_points subset viewDate today isCurrentMonth) as Hc.
  cbv zeta in Hc. fold chart in Hc.
  set (d := Z.min _ _) in Hc.
  assert (Z.of_nat (length chart) = Z.max 0 d) as Hlen.
  { rewrite Hc, length_fmap, length_seqZ. lia. }
  unfold shown. rewrite Hlen, seqZ_max0, onDays_max0.
  split; [done|]. rewrite Hc.
  split; [apply sumIncome_chartPoints | apply sumExpense_chartPoints].
Qed.

Lemma stats_totalSpent subset budget viewDate isCurrentMonth today :
  DailyStats.totalSpentThisMonth
    (App.stats subset budget viewDate isCurrentMonth today)
  = Spec.total EXPENSE subset.
Proof.
  unfold App.stats. rewrite !sumAmounts_ofType. by destruct isCurrentMonth.
Qed.

Lemma stats_totalIncome subset budget viewDate isCurrentMonth today :
  DailyStats.totalIncomeThisMonth
    (App.stats subset budget viewDate isCurrentMonth today)
  = Spec.total INCOME subset.
Proof.
  unfold App.stats. rewrite !sumAmounts_ofType. by destruct isCurrentMonth.
Qed.

End ChartSums.

(** ** The order of first occurrence *)

Section FirstSeen.

Lemma elem_of_firstSeen_go (seen l : list string) (k : string) :
  k ∈ Spec.firstSeen_go seen l ↔ k ∈ l ∧ k ∉ seen.
Proof.
  revert seen. induction l as [|k' l IH]; intros seen; simpl.
  - rewrite elem_of_nil. tauto.
  - case_decide as Hk'.
    + rewrite IH, elem_of_cons. split; [tauto|].
      intros [[->|?] ?]; [done|tauto].
    + rewrite !elem_of_cons, IH, not_elem_of_cons.
      destruct (decide (k = k')) as [->|]; tauto.
Qed.

Lemma elem_of_firstSeen (l : list string) (k : string) :
  k ∈ Spec.firstSeen l ↔ k ∈ l.
Proof.
  unfold Spec.firstSeen. rewrite elem_of_firstSeen_go, elem_of_nil. tauto.
Qed.

Lemma NoDup_firstSeen_go (seen l : list string) :
  NoDup (Spec.firstSeen_go seen l).
Proof.
  revert seen. induction l as [|k l IH]; intros seen; simpl.
  - constructor.
  - case_decide; [apply IH|].
    constructor; [|apply IH].
    rewrite elem_of_firstSeen_go, not_elem_of_cons. tauto.
Qed.

Lemma NoDup_firstSeen (l : list string) : NoDup (Spec.firstSeen l).
Proof. apply NoDup_firstSeen_go. Qed.

(** A title added at the end is a new group exactly when it was not seen. *)
Lemma firstSeen_go_snoc (seen l : list string) (k : string) :
  Spec.firstSeen_go seen (l ++ [k])
  = Spec.firstSeen_go seen l
    ++ (if decide (k ∈ seen ∨ k ∈ l) then [] else [k]).
Proof.
  revert seen. induction l as [|k' l IH]; intros seen; simpl.
  - apply decide_ext. rewrite elem_of_nil. tauto.
  - destruct (decide (k' ∈ seen)) as [Hk'|Hk']; rewrite IH; simpl;
      do 2 f_equal; apply decide_ext; rewrite !elem_of_cons.
    + split; [tauto|]. intros [?|[->|?]]; tauto.
    + tauto.
Qed.

Lemma firstSeen_snoc (l : list string) (k : string) :
  Spec.firstSeen (l ++ [k])
  = Spec.firstSeen l ++ (if decide (k ∈ l) then [] else [k]).
Proof.
  unfold Spec.firstSeen. rewrite firstSeen_go_snoc.
  f_equal. apply decide_ext. rewrite elem_of_nil. tauto.
Qed.

Lemma position_cons_ne (k k' : string) (l : list string) :
  k' ≠ k → Spec.position k (k' :: l) = S (Spec.position k l).
Proof. intros H. simpl. by rewrite decide_False. Qed.

(** The groups are listed by increasing position of first occurrence. *)
Lemma firstSeen_go_sorted (seen l : list string) :
  StronglySorted (λ k1 k2, (Spec.position k1 l < Spec.position k2 l)%nat)
    (Spec.firstSeen_go seen l).
Proof.
  revert seen. induction l as [|k l IH]; intros seen; simpl.
  - constructor.
  - assert (∀ seen',
      k ∈ seen' →
      StronglySorted
        (λ k1 k2, ((if decide (k = k1) then 0 else S (Spec.position k1 l))
                   < (if decide (k = k2) then 0 else S (Spec.position k2 l)))%nat)
        (Spec.firstSeen_go seen' l)) as Hrest.
    { intros seen' Hin.
      eapply StronglySorted_impl_elem; [|apply IH].
      intros k1 k2 H1 H2 Hlt.
      apply elem_of_firstSeen_go in H1 as [_ H1].
      apply elem_of_firstSeen_go in H2 as [_ H2].
      rewrite !decide_False by (intros ->; done). simpl in Hlt. lia. }
    case_decide as Hk.
    + by apply Hrest.
    + constructor.
      * apply Hrest. apply list_elem_of_here.
      * apply Forall_forall. intros k2 H2.
        apply elem_of_firstSeen_go in H2 as [_ H2].
        rewrite decide_True by done.
        rewrite decide_False; [lia|].
        intros ->. apply H2, list_elem_of_here.
Qed.

End FirstSeen.

(** ** The object that groups the expenses by title *)

Section GroupMap.
Local Open Scope Qc_scope.

Lemma getOwn_fmap (g : string → Obj.value) (keys : list string) (k : string) :
  Obj.getOwn ((λ k, (k, g k)) <$> keys) k
  = if decide (k ∈ keys) then Some (g k) else None.
Proof.
  induction keys as [|k' keys IH]; [done|].
  rewrite fmap_cons. simpl. rewrite IH.
  destruct (decide (k' = k)) as [->|Hne].
  - by rewrite decide_True by apply list_elem_of_here.
  - apply decide_ext. rewrite elem_of_cons. split; [tauto|].
    intros [?|?]; [congruence|done].
Qed.

Lemma update_fmap (g : string → Obj.value) (keys : list string) (k : string)
  (v : Obj.value) :
  NoDup keys →
  Obj.update ((λ k, (k, g k)) <$> keys) k v
  = (λ k', (k', if decide (k' = k) then v else g k')) <$> keys.
Proof.
  induction 1 as [|k' keys Hk' Hkeys IH]; [done|].
  rewrite !fmap_cons. simpl. case_decide as Heq.
  - subst k'. f_equal. apply list_fmap_ext. intros _ k' Hin%list_elem_of_lookup_2.
    rewrite decide_False; [done|]. by intros ->.
  - by rewrite IH.
Qed.

Lemma titleTotal_cons (k : string) (t : Transaction.t) (l : list Transaction.t) :
  Spec.titleTotal k (t :: l)
  = (if decide (Transaction.title t = k) then Transaction.amount t else 0)
    + Spec.titleTotal k l.
Proof.
  unfold Spec.titleTotal. rewrite filter_cons.
  case_decide; [by rewrite fmap_cons, sum_cons|ring].
Qed.

Lemma titleTotal_snoc (k : string) (l : list Transaction.t) (t : Transaction.t) :
  Spec.titleTotal k (l ++ [t])
  = Spec.titleTotal k l
    + (if decide (Transaction.title t = k) then Transaction.amount t else 0).
Proof.
  unfold Spec.titleTotal. rewrite filter_app, fmap_app, sum_app.
  f_equal. rewrite filter_cons, filter_nil.
  case_decide; [|done]. rewrite fmap_cons, sum_cons. cbn. ring.
Qed.

Lemma titleTotal_snoc_ne (k : string) (l : list Transaction.t) (t : Transaction.t) :
  Transaction.title t ≠ k → Spec.titleTotal k (l ++ [t]) = Spec.titleTotal k l.
Proof.
  intros Hne. unfold Spec.titleTotal.
  rewrite filter_app, filter_cons_False, filter_nil by done.
  by rewrite app_nil_r.
Qed.

Lemma titleTotal_absent (k : string) (l : list Transaction.t) :
  k ∉ Transaction.title <$> l → Spec.titleTotal k l = 0.
Proof.
  intros Hk. unfold Spec.titleTotal. rewrite filter_none; [done|].
  apply Forall_forall. intros t Ht Heq. apply Hk.
  apply list_elem_of_fmap. by exists t.
Qed.

(** The totals of the titles add up to the total of the list. *)
Lemma sum_titleTotals (keys : list string) (l : list Transaction.t) :
  NoDup keys → Forall (λ t, Transaction.title t ∈ keys) l →
  Spec.sum ((λ k, Spec.titleTotal k l) <$> keys)
  = Spec.sum (Transaction.amount <$> l).
Proof.
  intros Hkeys. induction 1 as [|t l Ht Hl IH].
  - apply sum_fmap_zero.
  - rewrite (list_fmap_ext _ _ _ (λ _ k _, titleTotal_cons k t l)).
    rewrite (sum_fmap_plus
      (λ k, if decide (Transaction.title t = k) then Transaction.amount t else 0)
      (λ k, Spec.titleTotal k l)).
    rewrite IH, sum_indicator by done.
    rewrite decide_True by done. by rewrite fmap_cons, sum_cons.
Qed.

Lemma proto_not_plain : "__proto__" ∈ Obj.prototypeKeys.
Proof. apply (bool_decide_unpack _). vm_compute. exact I. Qed.

(** One more expense with a plain title: its amount goes to the group of its
    title, which is created after the others when it is new. *)
Lemma addToGroup_groups (l : list Transaction.t) (t : Transaction.t) :
  Transaction.title t ∉ Obj.prototypeKeys →
  Shared.addToGroup (Spec.groups l) t = Spec.groups (l ++ [t]).
Proof.
  intros Hplain. unfold Shared.addToGroup, Spec.groups, Obj.get, Obj.set.
  set (k := Transaction.title t) in *.
  set (titles := Transaction.title <$> l).
  rewrite decide_False by (intros Heq; apply Hplain; rewrite Heq; apply proto_not_plain).
  rewrite fmap_app, fmap_cons, fmap_nil, firstSeen_snoc. fold k titles.
  rewrite (getOwn_fmap (λ k, Obj.VNum (Spec.titleTotal k l))).
  destruct (decide (k ∈ Spec.firstSeen titles)) as [Hin|Hin].
  - pose proof (proj1 (elem_of_firstSeen _ _) Hin) as Hin'.
    rewrite (decide_True (P := k ∈ titles)) by done.
    rewrite app_nil_r.
    rewrite (update_fmap (λ k, Obj.VNum (Spec.titleTotal k l)))
      by apply NoDup_firstSeen.
    apply list_fmap_ext. intros _ k' _. f_equal.
    destruct (decide (k' = k)) as [->|Hne].
    + simpl. rewrite titleTotal_snoc. fold k.
      rewrite (decide_True (P := k = k)) by done.
      case_decide as H0; [rewrite H0|]; done.
    + by rewrite titleTotal_snoc_ne.
  - assert (k ∉ titles) as Hin' by (by rewrite <- elem_of_firstSeen).
    rewrite (decide_False (P := k ∈ titles)) by done.
    rewrite decide_False by done. rewrite fmap_app. f_equal.
    + apply list_fmap_ext. intros _ k' Hk'%list_elem_of_lookup_2. f_equal. f_equal.
      symmetry. apply titleTotal_snoc_ne. intros Heq. apply Hin.
      unfold k. by rewrite Heq.
    + simpl. do 3 f_equal. rewrite titleTotal_snoc, titleTotal_absent by done.
      fold k. by rewrite (decide_True (P := k = k)).
Qed.

(** The object built by [categoryStats] from expenses with plain titles. *)
Lemma groupMap_groups (expenses : list Transaction.t) :
  Spec.plainTitles expenses →
  foldl Shared.addToGroup Obj.empty expenses = Spec.groups expenses.
Proof.
  induction expenses as [|t l IH] using rev_ind; intros Hplain; [done|].
  apply Forall_app in Hplain as [Hl Ht].
  rewrite foldl_snoc, IH by done.
  apply addToGroup_groups. by inversion Ht.
Qed.

Lemma groups_keys (l : list Transaction.t) :
  (Spec.groups l).*1 = Spec.firstSeen (Transaction.title <$> l).
Proof.
  unfold Spec.groups. rewrite <- list_fmap_compose. apply list_fmap_id.
Qed.

Lemma groups_sorted (l : list Transaction.t) :
  StronglySorted
    (λ e1 e2, (Spec.position e1.1 (Transaction.title <$> l)
               < Spec.position e2.1 (Transaction.title <$> l))%nat)
    (Spec.groups l).
Proof.
  unfold Spec.groups.
  eapply StronglySorted_fmap; [|apply firstSeen_go_sorted]. done.
Qed.

End GroupMap.

(** ** Array indices *)

Section ArrayIndex.

Lemma digitVal_10_inj (c1 c2 : ascii) (d : Z) :
  Str.digitVal 10 c1 = Some d → Str.digitVal 10 c2 = Some d → c1 = c2.
Proof.
  unfold Str.digitVal. intros H1 H2.
  rewrite <- (ascii_nat_embedding c1), <- (ascii_nat_embedding c2).
  f_equal.
  repeat case_bool_decide; simplify_eq; lia.
Qed.

Lemma digitVal_10_range (c : ascii) (d : Z) :
  Str.digitVal 10 c = Some d → 0 ≤ d ≤ 9.
Proof.
  unfold Str.digitVal. intros H.
  repeat case_bool_decide; simplify_eq; lia.
Qed.

Lemma digitVal_10_zero (c : ascii) :
  Str.digitVal 10 c = Some 0 → c = "0"%char.
Proof. intros H. by apply (digitVal_10_inj c "0" 0). Qed.

Local Abbreviation len s := (Z.of_nat (String.length s)) (only parsing).

Lemma pow10_pos (n : nat) : 0 < 10 ^ Z.of_nat n.
Proof. apply Z.pow_pos_nonneg; lia. Qed.

Lemma pow10_S (n : nat) : 10 ^ Z.of_nat (S n) = 10 * 10 ^ Z.of_nat n.
Proof. rewrite Nat2Z.inj_succ, Z.pow_succ_r; lia. Qed.

(** The value read after an accumulator [acc]. *)
Lemma decimal_acc (s : string) (acc : Z) :
  Obj.decimal s acc = (λ v, acc * 10 ^ len s + v) <$> Obj.decimal s 0.
Proof.
  revert acc. induction s as [|c s IH]; intros acc.
  - simpl. f_equal. lia.
  - cbn [Obj.decimal String.length].
    destruct (Str.digitVal 10 c) as [d|]; [|done].
    rewrite (IH (acc * 10 + d)), (IH (0 * 10 + d)).
    destruct (Obj.decimal s 0) as [v|]; [|done].
    simpl. f_equal. rewrite pow10_S. lia.
Qed.

Lemma decimal_cons (c : ascii) (s : string) (v : Z) :
  Obj.decimal (String c s) 0 = Some v →
  ∃ d w, Str.digitVal 10 c = Some d ∧ Obj.decimal s 0 = Some w
         ∧ v = d * 10 ^ len s + w.
Proof.
  cbn [Obj.decimal]. destruct (Str.digitVal 10 c) as [d|]; [|done].
  rewrite decimal_acc. destruct (Obj.decimal s 0) as [w|]; [|done].
  simpl. intros [= <-]. exists d, w. split_and!; [done..|lia].
Qed.

Lemma decimal_bounds (s : string) (v : Z) :
  Obj.decimal s 0 = Some v → 0 ≤ v < 10 ^ len s.
Proof.
  revert v. induction s as [|c s IH]; intros v.
  - simpl. intros [= <-]. lia.
  - intros (d & w & Hd & Hw & ->)%decimal_cons.
    apply digitVal_10_range in Hd. specialize (IH w Hw).
    cbn [String.length]. rewrite pow10_S. nia.
Qed.

(** Two strings of digits of one length with one value are equal. *)
Lemma decimal_inj_length (s1 s2 : string) (v : Z) :
  String.length s1 = String.length s2 →
  Obj.decimal s1 0 = Some v → Obj.decimal s2 0 = Some v → s1 = s2.
Proof.
  revert s2 v. induction s1 as [|c1 s1 IH]; intros [|c2 s2] v Hlen; try done.
  intros (d1 & w1 & Hd1 & Hw1 & ->)%decimal_cons
         (d2 & w2 & Hd2 & Hw2 & Heq)%decimal_cons.
  injection Hlen as Hlen. rewrite Hlen in Heq.
  pose proof (decimal_bounds _ _ Hw1) as B1.
  pose proof (decimal_bounds _ _ Hw2) as B2.
  rewrite Hlen in B1.
  set (P := 10 ^ len s2) in *.
  assert ((d1 - d2) * P = w2 - w1) as E by lia.
  assert (d1 = d2) as -> by nia.
  assert (w1 = w2) as -> by lia.
  f_equal.
  - by apply (digitVal_10_inj c1 c2 d2).
  - by apply (IH s2 w2).
Qed.

(** What [arrayIndex] accepts: the string "0", or digits that start with a
    digit other than 0. *)
Lemma arrayIndex_Some (k : string) (n : Z) :
  Obj.arrayIndex k = Some n →
  Obj.decimal k 0 = Some n
  ∧ (k = "0" ∨ ∃ c rest d, k = String c rest ∧ Str.digitVal 10 c = Some d ∧ 0 < d).
Proof.
  unfold Obj.arrayIndex. destruct k as [|c rest]; [done|].
  case_bool_decide as Hz; [done|].
  destruct (Obj.decimal (String c rest) 0) as [v|] eqn:Hv; [|done].
  case_bool_decide; [|done]. intros [= <-]. split; [done|].
  apply decimal_cons in Hv as (d & w & Hd & Hw & ->).
  destruct (decide (d = 0)) as [->|Hd0].
  - left. apply digitVal_10_zero in Hd as ->.
    destruct (decide (rest = EmptyString)) as [->|Hne]; [done|].
    exfalso. apply Hz. done.
  - right. exists c, rest, d. apply digitVal_10_range in Hd as Hr.
    split_and!; [done..|lia].
Qed.

Lemma leading_digit_bounds (c : ascii) (rest : string) (d n : Z) :
  Str.digitVal 10 c = Some d → 0 < d →
  Obj.decimal (String c rest) 0 = Some n →
  10 ^ len rest ≤ n < 10 ^ len (String c rest).
Proof.
  intros Hd Hpos Hn. split; [|by apply decimal_bounds].
  apply decimal_cons in Hn as (d' & w & Hd' & Hw & ->).
  assert (d' = d) as -> by congruence.
  pose proof (decimal_bounds _ _ Hw). pose proof (pow10_pos (String.length rest)).
  nia.
Qed.

(** Distinct array indices have distinct values. *)
Lemma arrayIndex_inj (k1 k2 : string) (n : Z) :
  Obj.arrayIndex k1 = Some n → Obj.arrayIndex k2 = Some n → k1 = k2.
Proof.
  intros [Hv1 Hc1]%arrayIndex_Some [Hv2 Hc2]%arrayIndex_Some.
  destruct Hc1 as [->|(c1 & r1 & d1 & -> & Hd1 & Hp1)];
    destruct Hc2 as [->|(c2 & r2 & d2 & -> & Hd2 & Hp2)]; [done | | |].
  - change (Some 0 = Some n) in Hv1. injection Hv1 as <-.
    pose proof (leading_digit_bounds _ _ _ _ Hd2 Hp2 Hv2) as [B _].
    pose proof (pow10_pos (String.length r2)). lia.
  - change (Some 0 = Some n) in Hv2. injection Hv2 as <-.
    pose proof (leading_digit_bounds _ _ _ _ Hd1 Hp1 Hv1) as [B _].
    pose proof (pow10_pos (String.length r1)). lia.
  - apply (decimal_inj_length _ _ n); [|done..].
    pose proof (leading_digit_bounds _ _ _ _ Hd1 Hp1 Hv1) as [L1 U1].
    pose proof (leading_digit_bounds _ _ _ _ Hd2 Hp2 Hv2) as [L2 U2].
    cbn [String.length] in *. f_equal.
    destruct (Nat.lt_trichotomy (String.length r1) (String.length r2))
      as [Hlt|[Heq|Hgt]]; [|done|].
    + exfalso.
      assert (10 ^ Z.of_nat (S (String.length r1)) ≤ 10 ^ len r2)
        by (apply Z.pow_le_mono_r; lia).
      lia.
    + exfalso.
      assert (10 ^ Z.of_nat (S (String.length r2)) ≤ 10 ^ len r1)
        by (apply Z.pow_le_mono_r; lia).
      lia.
Qed.

End ArrayIndex.

(** ** The order of [Object.entries] *)

Section Entries.

Local Abbreviation byIndex :=
  (λ e1 e2 : string * Obj.value, Obj.indexOf e1 < Obj.indexOf e2).

Lemma insertByIndex_Permutation e l : Obj.insertByIndex e l ≡ₚ e :: l.
Proof.
  induction l as [|e' l IH]; [done|]. simpl.
  case_bool_decide; [done|]. rewrite IH. apply Permutation_swap.
Qed.

Lemma sortByIndex_Permutation l : Obj.sortByIndex l ≡ₚ l.
Proof.
  induction l as [|e l IH]; [done|]. unfold Obj.sortByIndex in *. simpl.
  by rewrite insertByIndex_Permutation, IH.
Qed.

Lemma insertByIndex_sorted e l :
  Obj.indexOf e ∉ Obj.indexOf <$> l →
  StronglySorted byIndex l → StronglySorted byIndex (Obj.insertByIndex e l).
Proof.
  intros Hnew Hl. induction Hl as [|e' l Hl IH He']; simpl.
  - repeat constructor.
  - rewrite fmap_cons, not_elem_of_cons in Hnew. destruct Hnew as [Hne Hnew].
    rewrite Forall_forall in He'.
    case_bool_decide as Hle.
    + constructor; [by constructor; [|apply Forall_forall]|].
      constructor; [lia|]. apply Forall_forall. intros x Hx.
      specialize (He' x Hx). simpl in He'. lia.
    + constructor; [by apply IH|]. apply Forall_forall. intros x Hx.
      rewrite insertByIndex_Permutation in Hx.
      apply elem_of_cons in Hx as [->|Hx]; [lia|by apply He'].
Qed.

Lemma sortByIndex_sorted l :
  NoDup (Obj.indexOf <$> l) → StronglySorted byIndex (Obj.sortByIndex l).
Proof.
  induction l as [|e l IH]; [constructor|].
  rewrite fmap_cons, NoDup_cons. intros [Hnew Hl].
  unfold Obj.sortByIndex in *. simpl. apply insertByIndex_sorted; [|by apply IH].
  fold (Obj.sortByIndex l). by rewrite sortByIndex_Permutation.
Qed.

Lemma entries_Permutation (o : Obj.t) : Obj.entries o ≡ₚ o.
Proof.
  unfold Obj.entries. rewrite sortByIndex_Permutation.
  apply filter_app_complement.
Qed.

Lemma indexOf_arrayIndex (e : string * Obj.value) :
  Obj.isArrayIndex e.1 → Obj.arrayIndex e.1 = Some (Obj.indexOf e).
Proof. intros [n Hn]. unfold Obj.indexOf. by rewrite Hn. Qed.

(** The keys of an object come in the order [keyBefore] when they were
    created in the order of their first occurrence. *)
Lemma entries_order (titles : list string) (o : Obj.t) :
  NoDup o.*1 →
  StronglySorted
    (λ e1 e2, (Spec.position e1.1 titles < Spec.position e2.1 titles)%nat) o →
  StronglySorted (λ e1 e2, Spec.keyBefore titles e1.1 e2.1) (Obj.entries o).
Proof.
  intros Hnodup Hsorted. unfold Obj.entries.
  apply StronglySorted_app_2.
  - intros e1 e2 H1 H2. rewrite sortByIndex_Permutation in H1.
    apply list_elem_of_filter in H1 as [[a Ha] _].
    apply list_elem_of_filter in H2 as [Hb _].
    unfold Spec.keyBefore. rewrite Ha.
    destruct (Obj.arrayIndex e2.1) eqn:E; [|done].
    exfalso. apply Hb. by eexists.
  - eapply StronglySorted_impl_elem; [|apply sortByIndex_sorted].
    + intros e1 e2 H1 H2 Hlt. rewrite sortByIndex_Permutation in H1, H2.
      apply list_elem_of_filter in H1 as [H1 _].
      apply list_elem_of_filter in H2 as [H2 _].
      unfold Spec.keyBefore.
      by rewrite (indexOf_arrayIndex e1), (indexOf_arrayIndex e2).
    + apply NoDup_fmap_2_strong.
      * intros e1 e2 [I1 H1]%list_elem_of_filter [I2 H2]%list_elem_of_filter Heq.
        apply (NoDup_fmap_inj_on fst o); [done..|].
        apply indexOf_arrayIndex in I1, I2.
        apply (arrayIndex_inj _ _ (Obj.indexOf e1)); [done|by rewrite Heq].
      * apply NoDup_filter. by apply NoDup_fmap_1 in Hnodup.
  - eapply StronglySorted_impl_elem; [|by apply StronglySorted_filter].
    intros e1 e2 [H1 _]%list_elem_of_filter [H2 _]%list_elem_of_filter Hlt.
    unfold Spec.keyBefore.
    destruct (Obj.arrayIndex e1.1) eqn:E1; [exfalso; apply H1; by eexists|].
    destruct (Obj.arrayIndex e2.1) eqn:E2; [exfalso; apply H2; by eexists|].
    done.
Qed.

End Entries.

(** ** The sort by descending amount *)

Section SortByAmount.
Local Open Scope Qc_scope.

Local Abbreviation numeric := Spec.numeric.

Local Abbreviation descending :=
  (λ a b : CategoryData.t, Spec.amountOf b ≤ Spec.amountOf a).

Local Abbreviation sort := (JsArray.sort Shared.byAmountDesc).
Local Abbreviation insert := (JsArray.insert Shared.byAmountDesc).

Lemma after_numeric (x y : CategoryData.t) :
  numeric x → numeric y →
  JsArray.after Shared.byAmountDesc x y
  = bool_decide (Spec.amountOf x < Spec.amountOf y).
Proof.
  intros [a Ha] [b Hb].
  unfold JsArray.after, Shared.byAmountDesc, Spec.amountOf. rewrite Ha, Hb.
  apply bool_decide_ext. split; intros H.
  - apply Qclt_minus_iff. exact H.
  - apply Qclt_minus_iff in H. exact H.
Qed.

Lemma insert_Permutation (x : CategoryData.t) (l : list CategoryData.t) :
  insert x l ≡ₚ x :: l.
Proof.
  induction l as [|y l IH]; [done|]. simpl.
  destruct (JsArray.after _ x y); [|done].
  rewrite IH. apply Permutation_swap.
Qed.

Lemma sort_Permutation (l : list CategoryData.t) : sort l ≡ₚ l.
Proof.
  induction l as [|x l IH]; [done|]. unfold JsArray.sort in *. simpl.
  by rewrite insert_Permutation, IH.
Qed.

Lemma insert_descending (x : CategoryData.t) (l : list CategoryData.t) :
  numeric x → Forall numeric l →
  StronglySorted descending l → StronglySorted descending (insert x l).
Proof.
  intros Hx Hnum Hl. induction Hl as [|y l Hl IH Hy]; simpl.
  - repeat constructor.
  - apply Forall_cons in Hnum as [Hny Hnum].
    rewrite after_numeric by done. rewrite Forall_forall in Hy.
    case_bool_decide as Hlt.
    + constructor; [by apply IH|]. apply Forall_forall. intros z Hz.
      rewrite insert_Permutation in Hz.
      apply elem_of_cons in Hz as [->|Hz]; [by apply Qclt_le_weak|by apply Hy].
    + apply Qcnot_lt_le in Hlt.
      constructor; [by constructor; [|apply Forall_forall]|].
      constructor; [done|]. apply Forall_forall. intros z Hz.
      eapply Qcle_trans; [by apply Hy|done].
Qed.

Lemma sort_descending (l : list CategoryData.t) :
  Forall numeric l → StronglySorted descending (sort l).
Proof.
  induction 1 as [|x l Hx Hl IH]; [constructor|].
  unfold JsArray.sort in *. simpl. apply insert_descending; [done| |done].
  fold (sort l). by rewrite sort_Permutation.
Qed.

(** The sort is stable: the slices of one amount keep their order. *)
Lemma insert_stable (x : CategoryData.t) (l : list CategoryData.t) (v : Qc) :
  numeric x → Forall numeric l →
  filter (λ c, Spec.amountOf c = v) (insert x l)
  = filter (λ c, Spec.amountOf c = v) (x :: l).
Proof.
  intros Hx Hnum. induction Hnum as [|y l Hy Hnum IH]; [done|]. simpl.
  rewrite after_numeric by done.
  case_bool_decide as Hlt; [|done].
  rewrite filter_cons, IH, !filter_cons.
  apply Qclt_not_eq in Hlt.
  repeat case_decide; try done; congruence.
Qed.

Lemma sort_stable (l : list CategoryData.t) (v : Qc) :
  Forall numeric l →
  filter (λ c, Spec.amountOf c = v) (sort l)
  = filter (λ c, Spec.amountOf c = v) l.
Proof.
  induction 1 as [|x l Hx Hl IH]; [done|].
  unfold JsArray.sort in *. simpl. rewrite insert_stable; [|done|].
  - by rewrite !filter_cons, IH.
  - fold (sort l). by rewrite sort_Permutation.
Qed.

End SortByAmount.

(** ** The slices of [categoryStats] *)

Section Slices.
Local Open Scope Qc_scope.

(** A group becomes the slice of its title. *)
Lemma toCategory_group (l : list Transaction.t) (k : string) :
  Shared.toCategory (Shared.sumAmounts l) (k, Obj.VNum (Spec.titleTotal k l))
  = Spec.slice l k.
Proof.
  unfold Shared.toCategory, Spec.slice, Shared.percentageOf. simpl.
  rewrite sumAmounts_sum. do 2 f_equal. unfold Qcdiv. ring.
Qed.

Lemma toCategory_groups (l : list Transaction.t) :
  Shared.toCategory (Shared.sumAmounts l) <$> Spec.groups l
  = Spec.slice l <$> Spec.firstSeen (Transaction.title <$> l).
Proof.
  unfold Spec.groups. rewrite <- list_fmap_compose.
  apply list_fmap_ext. intros _ k _. apply toCategory_group.
Qed.

Lemma slice_numeric (l : list Transaction.t) (k : string) :
  Spec.numeric (Spec.slice l k).
Proof. by eexists. Qed.

Lemma toCategory_name (total : Qc) (e : string * Obj.value) :
  CategoryData.name (Shared.toCategory total e) = e.1.
Proof. done. Qed.

(** [categoryStats] on expenses with plain titles and a total that is not
    zero: the sorted slices of the groups, in the order of the keys of the
    object. *)
Lemma categoryStats_plain (subset : list Transaction.t) :
  let expenses := Shared.ofType EXPENSE subset in
  Spec.plainTitles expenses → Spec.total EXPENSE subset ≠ 0 →
  App.categoryStats subset
  = JsArray.sort Shared.byAmountDesc
      (Shared.toCategory (Shared.sumAmounts expenses)
         <$> Obj.entries (Spec.groups expenses)).
Proof.
  intros expenses Hplain Htotal. unfold App.categoryStats. fold expenses.
  rewrite decide_False by (unfold expenses; by rewrite sumAmounts_ofType).
  by rewrite groupMap_groups.
Qed.

Lemma entries_slices (l : list Transaction.t) :
  Shared.toCategory (Shared.sumAmounts l) <$> Obj.entries (Spec.groups l)
  ≡ₚ Spec.slice l <$> Spec.firstSeen (Transaction.title <$> l).
Proof. by rewrite entries_Permutation, toCategory_groups. Qed.

Lemma mapM_percentage (cats : list CategoryData.t) :
  Forall (λ c, is_Some (CategoryData.percentage c)) cats →
  mapM CategoryData.percentage cats
  = Some ((λ c, default 0 (CategoryData.percentage c)) <$> cats).
Proof.
  induction 1 as [|c cats [p Hp] _ IH]; [done|].
  cbn [mapM]. rewrite IH, Hp. simpl. rewrite Hp. reflexivity.
Qed.

Lemma categoryStats_zero_total (subset : list Transaction.t) :
  Spec.total EXPENSE subset = 0 → App.categoryStats subset = [].
Proof.
  intros H. unfold App.categoryStats.
  rewrite sumAmounts_ofType, decide_True; done.
Qed.

(** When no title is the name of a member of [Object.prototype] and the
    total of the expenses is not zero, the percentages add up to 100. *)
Lemma percentages_sum_100 (subset : list Transaction.t) :
  Spec.plainTitles (Shared.ofType EXPENSE subset) →
  Spec.total EXPENSE subset ≠ 0 →
  Spec.sumPercentages (App.categoryStats subset) = Some (Num.ofZ 100).
Proof.
  intros Hplain Hne.
  set (expenses := Shared.ofType EXPENSE subset) in *.
  set (keys := Spec.firstSeen (Transaction.title <$> expenses)).
  assert (App.categoryStats subset ≡ₚ Spec.slice expenses <$> keys) as Hperm.
  { rewrite categoryStats_plain by done. rewrite sort_Permutation.
    apply entries_slices. }
  unfold Spec.sumPercentages. rewrite mapM_percentage.
  2:{ rewrite Hperm. apply Forall_fmap, Forall_true. intros k. by eexists. }
  simpl. f_equal.
  rewrite (sum_Permutation _ _ (fmap_Permutation _ _ _ Hperm)).
  rewrite <- list_fmap_compose.
  rewrite (list_fmap_ext _
    (λ k, Num.ofZ 100 * Spec.titleTotal k expenses
          / Spec.sum (Transaction.amount <$> expenses))) by done.
  rewrite (sum_fmap_scale _ _ (λ k, Spec.titleTotal k expenses)).
  rewrite sum_titleTotals.
  - field. exact Hne.
  - apply NoDup_firstSeen.
  - apply Forall_forall. intros t Ht. apply elem_of_firstSeen.
    by apply list_elem_of_fmap_2.
Qed.

End Slices.

(** ** Guarded division *)

Lemma ofZ_nonzero (n : Z) : n ≠ 0 → Num.ofZ n ≠ 0%Qc.
Proof.
  intros Hn Heq. apply (f_equal this) in Heq.
  unfold Num.ofZ, Qc_of_Z in Heq. simpl in Heq.
  injection Heq as Heq. done.
Qed.

Lemma div_nonzero (a b : Qc) : b ≠ 0%Qc → Guarded.div a b = Some (a / b)%Qc.
Proof. intros Hb. unfold Guarded.div. by rewrite decide_False. Qed.

Lemma mapM_toCategory (total : Qc) (es : list (string * Obj.value)) :
  total ≠ 0%Qc →
  mapM (Guarded.toCategory total) es = Some (Shared.toCategory total <$> es).
Proof.
  intros Hne. induction es as [|[k v] es IH]; [done|].
  cbn [mapM]. rewrite IH. unfold Guarded.toCategory, Shared.toCategory.
  destruct v as [a|]; simpl.
  - by rewrite div_nonzero.
  - done.
Qed.

(** ** The handlers *)

Section HandlerLemmas.
Import AppState.
Variable parseFloat : string → option Qc.
Variable numberToString : Qc → string.

Local Abbreviation handle := (Page.handle parseFloat numberToString).

Lemma isEmpty_true (x : string) : Shared.isEmpty x = true ↔ x = "".
Proof. unfold Shared.isEmpty. apply bool_decide_eq_true. Qed.

Lemma isEmpty_false (x : string) : Shared.isEmpty x = false ↔ x ≠ "".
Proof. unfold Shared.isEmpty. apply bool_decide_eq_false. Qed.

(** Adding a transaction is validated and atomic, in both versions: if the
    title is empty or the amount does not parse to a number greater than 0,
    the state, and so the transaction list, is unchanged; otherwise one
    transaction with the title, the parsed amount and the chosen type is put
    in front of the list, which is otherwise unchanged. Its date is the date
    part of [toISOString()], the day in UTC. [parseFloat] is any function
    that reads the empty string as [NaN]. *)
Lemma handleAddTransaction_validated (old : bool) (env : Env.t) (s : AppState.t) :
  parseFloat "" = None →
  let s' := handle old (Page.Submit env) s in
  ((newTransTitle s = ""
    ∨ ¬ (∃ amount, parseFloat (newTransAmount s) = Some amount ∧ (0 < amount)%Qc))
   → s' = s)
  ∧ (∀ amount,
       newTransTitle s ≠ "" →
       parseFloat (newTransAmount s) = Some amount → (0 < amount)%Qc →
       transactions s'
       = Transaction.mk (Env.randomUUID env) (newTransTitle s) amount
           (newTransType s) (Shared.todayStr env) (Env.dateNow env)
         :: transactions s).
Proof.
  intros Hempty s'. subst s'. split.
  - intros Hrej.
    assert (App.handleAddTransaction parseFloat env s = s
            ∧ AppOld.handleAddTransaction parseFloat env s = s) as [H1 H2].
    { unfold App.handleAddTransaction, AppOld.handleAddTransaction.
      destruct (Shared.isEmpty (newTransTitle s)) eqn:Ht; [done|].
      destruct (Shared.isEmpty (newTransAmount s)) eqn:Ha; [done|].
      simpl. apply isEmpty_false in Ht.
      destruct Hrej as [Hrej|Hrej]; [done|].
      destruct (parseFloat (newTransAmount s)) as [amount|]; [|done].
      case_decide; [done|]. exfalso. apply Hrej. exists amount.
      split; [done|]. by apply Qclt_nge. }
    simpl. by destruct old.
  - intros amount Ht Hp Hpos.
    assert (newTransAmount s ≠ "") as Ha.
    { intros Heq. rewrite Heq, Hempty in Hp. done. }
    apply isEmpty_false in Ht. apply isEmpty_false in Ha.
    simpl. unfold App.handleAddTransaction, AppOld.handleAddTransaction.
    rewrite Ht, Ha, Hp. cbn [orb].
    destruct old; (case_decide; [by apply Qclt_nge in Hpos|]); [done|].
    by destruct (Env.isCurrentMonth env).
Qed.

Lemma saveBudget_budget (old : bool) (s : AppState.t) :
  monthlyBudget (handle old Page.ClickSave s)
  = match parseFloat (tempBudgetInput s) with
    | Some val => if decide (0 < val)%Qc then val else monthlyBudget s
    | None => monthlyBudget s
    end.
Proof.
  simpl. unfold App.saveBudget, AppOld.saveBudget.
  destruct old; (destruct (parseFloat (tempBudgetInput s)) as [val|]; [|done]);
    by case_decide.
Qed.

Lemma saveBudget_rejected (old : bool) (s : AppState.t) :
  ¬ (∃ val, parseFloat (tempBudgetInput s) = Some val ∧ (0 < val)%Qc) →
  handle old Page.ClickSave s = s.
Proof.
  intros Hrej. simpl. unfold App.saveBudget, AppOld.saveBudget.
  destruct old;
    (destruct (parseFloat (tempBudgetInput s)) as [val|]; [|done]);
    (case_decide; [|done]); exfalso; apply Hrej; by exists val.
Qed.

Lemma handleAddTransaction_budget env s :
  monthlyBudget (App.handleAddTransaction parseFloat env s) = monthlyBudget s
  ∧ monthlyBudget (AppOld.handleAddTransaction parseFloat env s)
    = monthlyBudget s.
Proof.
  unfold App.handleAddTransaction, AppOld.handleAddTransaction.
  repeat case_match; done.
Qed.

(** An event other than a click on the save button leaves the budget as it
    is. *)
Lemma handle_budget (old : bool) (e : Page.event) (s : AppState.t) :
  e ≠ Page.ClickSave → monthlyBudget (handle old e s) = monthlyBudget s.
Proof.
  intros He. destruct e; try done; simpl; destruct old; try done;
    apply handleAddTransaction_budget.
Qed.

Lemma handle_positive (old : bool) (e : Page.event) (s : AppState.t) :
  (0 < monthlyBudget s)%Qc → (0 < monthlyBudget (handle old e s))%Qc.
Proof.
  intros Hpos.
  destruct e; try (rewrite handle_budget by done; exact Hpos).
  rewrite saveBudget_budget. repeat case_match; done.
Qed.

End HandlerLemmas.

Example handleAddTransaction_lunch :
  AppState.transactions
    (Page.handle Str.parseFloat (λ _, "1000") false (Page.Submit Ex.env)
       (Ex.form "Lunch" "12.50" "800"))
  = Transaction.mk "0b1f" "Lunch" (Num.ofZ 25 / Num.ofZ 2)%Qc EXPENSE
      "2024-06-10" 1718008200000
    :: Ex.coffeeTea.
Proof.
  pose proof (handleAddTransaction_validated Str.parseFloat (λ _, "1000") false
                Ex.env (Ex.form "Lunch" "12.50" "800") eq_refl) as [_ H].
  rewrite (H (Num.ofZ 25 / Num.ofZ 2)%Qc).
  - reflexivity.
  - discriminate.
  - transitivity (Some (default 0%Qc (Str.parseFloat "12.50"))).
    + vm_compute. reflexivity.
    + apply (f_equal Some). by_value.
  - reflexivity.
Qed.

(** ** Dates [YYYY-MM-DD] *)

Section IsoDates.

Local Abbreviation digitChars :=
  (["0"; "1"; "2"; "3"; "4"; "5"; "6"; "7"; "8"; "9"]%char : list ascii).

Lemma isDigit_cases (c : ascii) : Spec.isDigit c = true → c ∈ digitChars.
Proof.
  unfold Spec.isDigit. intros H%bool_decide_eq_true.
  rewrite <- (ascii_nat_embedding c).
  assert (Forall (λ n, ascii_of_nat n ∈ digitChars) (seq 48 10)) as Hall.
  { apply (bool_decide_unpack _). vm_compute. exact I. }
  rewrite Forall_forall in Hall. apply Hall, elem_of_seq. lia.
Qed.

Lemma isDigit_not_hyphen (c : ascii) : Spec.isDigit c = true → c ≠ "-"%char.
Proof. intros H ->. vm_compute in H. discriminate. Qed.

(** [parseInt] reads two digits as the number they write. *)
Lemma parseInt_two_digits (d1 d2 : ascii) :
  Spec.isDigit d1 = true → Spec.isDigit d2 = true →
  Str.parseInt (String d1 (String d2 ""))
  = Some (10 * Spec.digitValue d1 + Spec.digitValue d2).
Proof.
  intros H1%isDigit_cases H2%isDigit_cases.
  assert (Forall (λ d1, Forall (λ d2,
            Str.parseInt (String d1 (String d2 ""))
            = Some (10 * Spec.digitValue d1 + Spec.digitValue d2))
          digitChars) digitChars) as Hall.
  { apply (bool_decide_unpack _). vm_compute. exact I. }
  rewrite Forall_forall in Hall. specialize (Hall d1 H1).
  rewrite Forall_forall in Hall. by apply Hall.
Qed.

Lemma split_go_other (sep c : ascii) (s cur : string) :
  c ≠ sep → Str.split_go sep (String c s) cur = Str.split_go sep s (String c cur).
Proof. intros H. simpl. by rewrite decide_False. Qed.

Lemma split_go_sep (sep : ascii) (s cur : string) :
  Str.split_go sep (String sep s) cur = String.rev cur :: Str.split_go sep s "".
Proof. simpl. by rewrite decide_True. Qed.

(** On a date [YYYY-MM-DD] the code finds the day that the date writes. *)
Lemma dayOf_isoDay (t : Transaction.t) (i : Z) :
  Spec.isoDay (Transaction.date t) = Some i → Shared.dayOf t = Some i.
Proof.
  unfold Shared.dayOf. destruct (Transaction.date t) as [|y1 s]; [done|].
  destruct s as [|y2 s]; [done|]. destruct s as [|y3 s]; [done|].
  destruct s as [|y4 s]; [done|]. destruct s as [|h1 s]; [done|].
  destruct s as [|m1 s]; [done|]. destruct s as [|m2 s]; [done|].
  destruct s as [|h2 s]; [done|]. destruct s as [|d1 s]; [done|].
  destruct s as [|d2 s]; [done|]. destruct s as [|? s]; [|done].
  unfold Spec.isoDay.
  destruct (forallb _ _ && _ && _) eqn:Hiso; [|done].
  intros [= <-].
  apply andb_true_iff in Hiso as [Hiso Hh2].
  apply andb_true_iff in Hiso as [Hd Hh1].
  apply bool_decide_eq_true in Hh1 as ->.
  apply bool_decide_eq_true in Hh2 as ->.
  cbn [forallb] in Hd.
  repeat (apply andb_true_iff in Hd as [? Hd]).
  unfold Str.split.
  rewrite !split_go_other by (by apply isDigit_not_hyphen).
  rewrite split_go_sep.
  rewrite !split_go_other by (by apply isDigit_not_hyphen).
  rewrite split_go_sep.
  rewrite !split_go_other by (by apply isDigit_not_hyphen).
  cbn. by apply parseInt_two_digits.
Qed.

Lemma dayOf_iso (t : Transaction.t) :
  Spec.isIsoDate (Transaction.date t) →
  Shared.dayOf t = Spec.isoDay (Transaction.date t).
Proof. intros [i Hi]. rewrite Hi. by apply dayOf_isoDay. Qed.

(** On dates [YYYY-MM-DD] the total of a day is the total of the
    transactions that the date puts on this day. *)
Lemma total_onDay_dayTotal (k : TransactionType) (i : Z) (l : list Transaction.t) :
  Spec.isoDated l → Spec.total k (Spec.onDay i l) = Spec.dayTotal k i l.
Proof.
  intros Hiso. unfold Spec.total, Spec.onDay, Spec.dayTotal.
  rewrite list_filter_filter. do 2 f_equal.
  induction Hiso as [|t l Ht Hl IH]; [done|].
  rewrite !filter_cons, IH. apply dayOf_iso in Ht.
  do 2 case_decide; try done; exfalso; rewrite Ht in *; tauto.
Qed.

Lemma chartPoint_dayPoint (l : list Transaction.t) (i : Z) :
  Spec.isoDated l → Spec.chartPoint l i = Spec.dayPoint l i.
Proof.
  intros Hiso. unfold Spec.chartPoint, Spec.dayPoint.
  by rewrite !total_onDay_dayTotal.
Qed.

Lemma onDays_datedWithin (n : Z) (l : list Transaction.t) :
  Spec.isoDated l → Spec.onDays n l = filter (Spec.datedWithin n) l.
Proof.
  intros Hiso. unfold Spec.onDays.
  induction Hiso as [|t l Ht Hl IH]; [done|].
  rewrite !filter_cons, IH. apply dayOf_iso in Ht.
  assert (Spec.dayWithin n t ↔ Spec.datedWithin n t) as Hiff
    by (unfold Spec.dayWithin, Spec.datedWithin; by rewrite Ht).
  do 2 case_decide; try done; tauto.
Qed.

End IsoDates.

(** ** The calendar as a table *)

Lemma isLeapYear_leapYear (y : Z) :
  JsDate.isLeapYear y = bool_decide (Spec.leapYear y).
Proof.
  unfold JsDate.isLeapYear, Spec.leapYear.
  apply eq_true_iff_eq.
  rewrite andb_true_iff, orb_true_iff, negb_true_iff, !bool_decide_eq_true,
    bool_decide_eq_false.
  pose proof (Z.mod_pos_bound y 4). pose proof (Z.mod_pos_bound y 400).
  assert (y mod 400 = 0 → y mod 4 = 0).
  { intros H400. rewrite (Z.div_mod y 400) by lia. rewrite H400.
    replace (400 * (y / 400) + 0) with (0 + (100 * (y / 400)) * 4) by lia.
    by rewrite Z.mod_add. }
  tauto.
Qed.

Lemma monthLength_daysInMonth (y m : Z) :
  0 ≤ m ≤ 11 → JsDate.monthLength y m = Spec.daysInMonth y m.
Proof.
  intros Hm. unfold JsDate.monthLength, Spec.daysInMonth.
  rewrite isLeapYear_leapYear.
  assert (m = 0 ∨ m = 1 ∨ m = 2 ∨ m = 3 ∨ m = 4 ∨ m = 5 ∨ m = 6 ∨ m = 7
          ∨ m = 8 ∨ m = 9 ∨ m = 10 ∨ m = 11) as Hcases by lia.
  destruct (decide (Spec.leapYear y)) as [Hy|Hy];
    [rewrite bool_decide_eq_true_2 by done|rewrite bool_decide_eq_false_2 by done];
    repeat (destruct Hcases as [->|Hcases]); try subst m; reflexivity.
Qed.

Lemma calendarDate_valid (d : JsDate.t) : Spec.calendarDate d → JsDate.valid d.
Proof.
  intros (Hm & Hd & Hy). unfold JsDate.valid.
  rewrite monthLength_daysInMonth by done. done.
Qed.

(** ** Sums of positive amounts *)

Section PositiveSums.
Local Open Scope Qc_scope.

Lemma sum_nonneg (l : list Qc) : Forall (λ x, 0 < x) l → 0 ≤ Spec.sum l.
Proof.
  induction 1 as [|x l Hx _ IH]; [done|].
  rewrite sum_cons. replace 0 with (0 + 0) by ring.
  apply Qcplus_le_compat; [by apply Qclt_le_weak|done].
Qed.

Lemma sum_positive (x : Qc) (l : list Qc) :
  Forall (λ x, 0 < x) (x :: l) → 0 < Spec.sum (x :: l).
Proof.
  intros [Hx Hl]%Forall_cons. rewrite sum_cons.
  apply sum_nonneg in Hl.
  apply Qclt_le_trans with (x + 0); [by rewrite Qcplus_0_r|].
  by apply Qcplus_le_compat.
Qed.

Lemma total_split (P : Transaction.t → Prop) `{∀ t, Decision (P t)}
  (k : TransactionType) (l : list Transaction.t) :
  Spec.total k l
  = Spec.total k (filter P l) + Spec.total k (filter (λ t, ¬ P t) l).
Proof.
  induction l as [|t l IH]; [by rewrite !filter_nil, !total_nil|].
  rewrite !filter_cons.
  destruct (decide (P t)) as [HP|HP].
  - rewrite (decide_False (P := ¬ P t)) by tauto. rewrite !total_cons, IH. ring.
  - rewrite (decide_True (P := ¬ P t)) by done. rewrite !total_cons, IH. ring.
Qed.

Lemma total_zero_positive (k : TransactionType) (l : list Transaction.t) :
  Forall (λ t, 0 < Transaction.amount t) l → Spec.total k l = 0 →
  Forall (λ t, Transaction.type t ≠ k) l.
Proof.
  intros Hpos Hzero. unfold Spec.total in Hzero.
  destruct (filter (λ t, Transaction.type t = k) l) as [|t l'] eqn:Hf.
  - apply Forall_forall. intros t Ht Hk.
    assert (t ∈ filter (λ t, Transaction.type t = k) l) as Hin
      by (by apply list_elem_of_filter).
    rewrite Hf in Hin. by apply elem_of_nil in Hin.
  - exfalso. rewrite fmap_cons in Hzero.
    assert (0 < Spec.sum (Transaction.amount t :: (Transaction.amount <$> l'))) as Hlt.
    { apply sum_positive. rewrite <- fmap_cons. apply Forall_fmap.
      rewrite <- Hf. apply Forall_forall.
      intros x [_ Hx]%list_elem_of_filter.
      rewrite Forall_forall in Hpos. by apply Hpos. }
    rewrite Hzero in Hlt. by apply Qclt_not_eq in Hlt.
Qed.

End PositiveSums.

(** ** The clamp and the divisor of [stats] *)

Section StatsLemmas.
Local Open Scope Qc_scope.

Lemma max_atLeastZero (q : Qc) : Num.max 0 q = Spec.atLeastZero q.
Proof. unfold Num.max, Spec.atLeastZero. by case_decide. Qed.

Lemma atLeastZero_nonneg (q : Qc) : 0 ≤ Spec.atLeastZero q.
Proof. unfold Spec.atLeastZero. by case_decide. Qed.

Lemma Qc_of_Z_pos (n : Z) : (1 ≤ n)%Z → 0 < Qc_of_Z n.
Proof.
  intros Hn. unfold Qclt, Qlt. simpl. lia.
Qed.

(** The quotient by a positive number of days has the sign of the
    dividend. *)
Lemma div_nonneg (r : Qc) (n : Z) : (1 ≤ n)%Z → 0 ≤ r → 0 ≤ r / Qc_of_Z n.
Proof.
  intros Hn Hr. pose proof (Qc_of_Z_pos n Hn) as Hpos.
  unfold Qcdiv. replace 0 with (0 * / Qc_of_Z n) by ring.
  apply Qcmult_le_compat_r; [done|].
  apply Qclt_le_weak, Qcinv_pos. done.
Qed.

Lemma div_nonpos (r : Qc) (n : Z) : (1 ≤ n)%Z → r ≤ 0 → r / Qc_of_Z n ≤ 0.
Proof.
  intros Hn Hr. pose proof (Qc_of_Z_pos n Hn) as Hpos.
  unfold Qcdiv. replace 0 with (0 * / Qc_of_Z n) by ring.
  apply Qcmult_le_compat_r; [done|].
  apply Qclt_le_weak, Qcinv_pos. done.
Qed.

Lemma atLeastZero_div (r : Qc) (n : Z) :
  (1 ≤ n)%Z →
  (0 ≤ r → Spec.atLeastZero (r / Qc_of_Z n) * Qc_of_Z n = r)
  ∧ (r ≤ 0 → Spec.atLeastZero (r / Qc_of_Z n) = 0).
Proof.
  intros Hn. pose proof (Qc_of_Z_pos n Hn) as Hpos.
  assert (Qc_of_Z n ≠ 0) as Hne by (intros Heq; rewrite Heq in Hpos; by apply Qclt_not_eq in Hpos).
  unfold Spec.atLeastZero. split; intros Hr.
  - rewrite decide_True by (by apply div_nonneg). by field.
  - case_decide as Hq; [|done].
    apply Qcle_antisym; [by apply div_nonpos|done].
Qed.

End StatsLemmas.

(** The fields of [stats]. *)
Lemma stats_fields (subset : list Transaction.t) (budget : Qc)
  (viewDate today : JsDate.t) (isCurrentMonth : bool) :
  let s := App.stats subset budget viewDate isCurrentMonth today in
  let lastDayOfMonth :=
    JsDate.lastDayBefore (JsDate.getFullYear viewDate) (JsDate.getMonth viewDate + 1) in
  DailyStats.remainingBudget s = (budget - Spec.total EXPENSE subset)%Qc
  ∧ DailyStats.daysRemaining s
    = (if isCurrentMonth
       then Z.max 1 (lastDayOfMonth - JsDate.getDate today + 1) else 0)
  ∧ DailyStats.dailyAvailable s
    = (if isCurrentMonth
       then Spec.atLeastZero (DailyStats.remainingBudget s
                              / Qc_of_Z (DailyStats.daysRemaining s))
       else 0)%Qc
  ∧ (0 ≤ DailyStats.dailyAvailable s)%Qc.
Proof.
  intros s lastDayOfMonth.
  assert (DailyStats.dailyAvailable s
          = (if isCurrentMonth
             then Spec.atLeastZero (DailyStats.remainingBudget s
                                    / Qc_of_Z (DailyStats.daysRemaining s))
             else 0)%Qc) as Ha.
  { unfold s, App.stats. destruct isCurrentMonth; [|done].
    cbn [DailyStats.dailyAvailable DailyStats.remainingBudget DailyStats.daysRemaining].
    apply max_atLeastZero. }
  split_and!.
  - unfold s, App.stats. rewrite !sumAmounts_ofType. by destruct isCurrentMonth.
  - unfold s, App.stats. by destruct isCurrentMonth.
  - exact Ha.
  - rewrite Ha. destruct isCurrentMonth; [apply atLeastZero_nonneg|done].
Qed.

(** The days on the chart. *)
Lemma chartData_shown (subset : list Transaction.t) (viewDate today : JsDate.t) :
  Spec.calendarDate viewDate → Spec.calendarDate today →
  Spec.chronological viewDate today →
  App.chartData subset viewDate (App.isCurrentMonth viewDate today) today
  = Spec.chartPoint subset <$> seqZ 1 (Spec.lastShownDay viewDate today).
Proof.
  intros (Hvm & Hvd & Hvy)%calendarDate_valid (Htm & Htd & Hty)%calendarDate_valid Hchr.
  rewrite chartData_points. cbv zeta.
  rewrite lastDayBefore_monthLength by done.
  f_equal. f_equal. unfold Spec.lastShownDay.
  rewrite <- (monthLength_daysInMonth (JsDate.getFullYear viewDate)) by done.
  rewrite isCurrentMonth_decide.
  destruct (decide (Spec.sameMonth viewDate today)) as [Hsame|Hne].
  - rewrite bool_decide_eq_true_2 by done.
    destruct Hsame as [Hy Hm]. rewrite Hy, Hm. lia.
  - rewrite bool_decide_eq_false_2 by done.
    rewrite gt_monthAfter by done.
    destruct (decide (Spec.monthAfter viewDate today)).
    + rewrite bool_decide_eq_true_2 by done.
      pose proof (monthLength_bounds (JsDate.getFullYear viewDate)
                    (JsDate.getMonth viewDate)). lia.
    + rewrite bool_decide_eq_false_2 by done. lia.
Qed.

Lemma if_bool_decide {A} (P : Prop) `{HP : Decision P} (a b : A) :
  (if bool_decide P then a else b) = (if decide P then a else b).
Proof. unfold bool_decide, decide. by destruct HP. Qed.

(** ** The order of the transactions does not matter to the sums *)

Section Order.

Lemma total_Permutation (k : TransactionType) (l1 l2 : list Transaction.t) :
  l1 ≡ₚ l2 → Spec.total k l1 = Spec.total k l2.
Proof.
  intros H. unfold Spec.total. apply sum_Permutation.
  by rewrite H.
Qed.

Lemma stats_Permutation l1 l2 budget viewDate cur today :
  l1 ≡ₚ l2 →
  App.stats l1 budget viewDate cur today = App.stats l2 budget viewDate cur today.
Proof.
  intros H. unfold App.stats. rewrite !sumAmounts_ofType.
  by rewrite !(total_Permutation _ _ _ H).
Qed.

Lemma chartPoint_Permutation l1 l2 i :
  l1 ≡ₚ l2 → Spec.chartPoint l1 i = Spec.chartPoint l2 i.
Proof.
  intros H. unfold Spec.chartPoint, Spec.onDay.
  f_equal; apply total_Permutation; by rewrite H.
Qed.

Lemma chartData_Permutation l1 l2 viewDate cur today :
  l1 ≡ₚ l2 →
  App.chartData l1 viewDate cur today = App.chartData l2 viewDate cur today.
Proof.
  intros H. rewrite !chartData_points. cbv zeta.
  apply list_fmap_ext. intros _ i _. by apply chartPoint_Permutation.
Qed.

Lemma stats_old_new l budget today :
  AppOld.stats l budget today = App.stats l budget today true today.
Proof. reflexivity. Qed.

Lemma chartData_old_new l today :
  AppOld.chartData l today = App.chartData l today true today.
Proof. reflexivity. Qed.

Lemma sort_insert_Permutation {A} (cmp : A → A → option Qc) (x : A) (l : list A) :
  JsArray.insert cmp x l ≡ₚ x :: l.
Proof.
  induction l as [|y l IH]; [done|]. simpl.
  destruct (JsArray.after cmp x y); [|done].
  rewrite IH. apply Permutation_swap.
Qed.

(** [sort] rearranges: it loses and adds nothing. *)
Lemma sort_any_Permutation {A} (cmp : A → A → option Qc) (l : list A) :
  JsArray.sort cmp l ≡ₚ l.
Proof.
  induction l as [|x l IH]; [done|]. unfold JsArray.sort in *. simpl.
  by rewrite sort_insert_Permutation, IH.
Qed.

End Order.

(** ** The cells across events and renders *)

Section Cells.
Import AppState.
Variable parseFloat : string → option Qc.
Variable numberToString : Qc → string.

Lemma isCurrentMonth_sameDay (viewDate now today : JsDate.t) :
  Spec.sameDay now today →
  App.isCurrentMonth viewDate now = App.isCurrentMonth viewDate today.
Proof. intros (Hy & Hm & _). unfold App.isCurrentMonth. by rewrite Hy, Hm. Qed.

Lemma stats_sameDay l budget viewDate (now today : JsDate.t) :
  Spec.sameDay now today →
  App.stats l budget viewDate true now = App.stats l budget viewDate true today.
Proof. intros (_ & _ & Hd). unfold App.stats. by rewrite Hd. Qed.

Lemma chartData_sameDay l viewDate (now today : JsDate.t) :
  Spec.sameDay now today →
  App.chartData l viewDate true now = App.chartData l viewDate true today.
Proof. intros (_ & _ & Hd). unfold App.chartData. by rewrite Hd. Qed.

(** An event keeps the array of the transactions and the [Date] of the
    view, or stores a new one. *)
Lemma handle_identities (old : bool) (e : Page.event) (s : AppState.t) :
  let s' := Page.handle parseFloat numberToString old e s in
  (transactionsId s ≤ transactionsId s')%nat
  ∧ (transactionsId s' = transactionsId s → transactions s' = transactions s)
  ∧ (viewDateId s ≤ viewDateId s')%nat
  ∧ (viewDateId s' = viewDateId s → viewDate s' = viewDate s).
Proof.
  destruct e; simpl.
  - unfold App.handleAddTransaction, AppOld.handleAddTransaction.
    destruct old; repeat case_match; simpl; split_and!; intros; (done || lia).
  - destruct old; simpl; split_and!; intros; (done || lia).
  - unfold App.saveBudget, AppOld.saveBudget.
    destruct old; repeat case_match; simpl; split_and!; intros; (done || lia).
  - destruct old; simpl; split_and!; intros; (done || lia).
  - destruct old; simpl; split_and!; intros; (done || lia).
  - split_and!; intros; (done || lia).
  - split_and!; intros; (done || lia).
  - split_and!; intros; (done || lia).
  - split_and!; intros; (done || lia).
  - split_and!; intros; (done || lia).
Qed.

Lemma consistent_event (today : JsDate.t) (old : bool) (e : Page.event)
  (s : AppState.t) (c : Memo.cells) :
  Memo.consistent today s c →
  Memo.consistent today (Page.handle parseFloat numberToString old e s) c.
Proof.
  pose proof (handle_identities old e s) as (T1 & T2 & V1 & V2).
  cbv zeta in T1, T2, V1, V2.
  set (s' := Page.handle parseFloat numberToString old e s) in *.
  unfold Memo.consistent. cbv zeta.
  intros (D1 & D2 & D3 & Hv & Ht & Hflag & Hvals).
  split_and!; try done; try lia.
  - intros Heq. assert (viewDateId s' = viewDateId s) as E by lia.
    rewrite (V2 E). apply Hflag. lia.
  - intros Heq. assert (transactionsId s' = transactionsId s) as E by lia.
    rewrite (T2 E).
    destruct Hvals as (Hp & Hc & Hsc); [lia|].
    split_and!; try done.
    intros Heq' Hfl. assert (viewDateId s' = viewDateId s) as E' by lia.
    rewrite (V2 E'). apply Hsc; [lia|done].
Qed.

Lemma consistentOld_event (old : bool) (e : Page.event)
  (s : AppState.t) (c : Memo.cellsOld) :
  Memo.consistentOld s c →
  Memo.consistentOld (Page.handle parseFloat numberToString old e s) c.
Proof.
  pose proof (handle_identities old e s) as (T1 & T2 & V1 & V2).
  cbv zeta in T1, T2, V1, V2.
  set (s' := Page.handle parseFloat numberToString old e s) in *.
  unfold Memo.consistentOld. cbv zeta.
  intros (D3 & Ht & Hvals).
  split_and!; try done; try lia.
  intros Heq. assert (transactionsId s' = transactionsId s) as E by lia.
  rewrite (T2 E). apply Hvals. lia.
Qed.

Local Abbreviation arr_items_of c :=
  (Memo.arr_items (Memo.o_currentMonthTransactions c).2) (only parsing).

Lemma useMemo_fst {D V : Type} `{EqDecision D} (v : V) (d : D) cell :
  (Memo.useMemo v d cell).1 = d.
Proof. unfold Memo.useMemo. destruct cell as [[d' v']|]; [|done]. by case_decide. Qed.

Lemma useMemo_hit {D V : Type} `{EqDecision D} (v v' : V) (d : D) :
  Memo.useMemo v d (Some (d, v')) = (d, v').
Proof. unfold Memo.useMemo. by rewrite decide_True. Qed.

Lemma useMemo_miss {D V : Type} `{EqDecision D} (v v' : V) (d d' : D) :
  d' ≠ d → Memo.useMemo v d (Some (d', v')) = (d, v).
Proof. intros Hne. unfold Memo.useMemo. by rewrite decide_False. Qed.

Local Arguments Memo.useMemo : simpl never.

Lemma render_consistent (today now : JsDate.t) (s : AppState.t)
  (prev : option Memo.cells) :
  Spec.sameDay now today →
  match prev with Some c => Memo.consistent today s c | None => True end →
  Memo.consistent today s (Memo.render now s prev).
Proof.
  intros Hday Hprev.
  pose proof (isCurrentMonth_sameDay (viewDate s) now today Hday) as Hfl.
  destruct prev as [c|].
  2:{ unfold Memo.consistent, Memo.render, Memo.useMemo. simpl.
      split_and!; try done.
      intros _. split_and!.
      - apply sort_any_Permutation.
      - done.
      - intros _ Htrue. rewrite Htrue. split.
        + by apply stats_sameDay.
        + by apply chartData_sameDay. }
  destruct c as [[fd fl] [[td str] [aid items]] [[[[sa sb] sv] sf] st]
                 [[[ca cv] cf] ch] [ka cats]].
  unfold Memo.consistent in Hprev. simpl in Hprev.
  destruct Hprev as (D1 & D2 & D3 & Hv & Ht & Hflag & Hvals).
  simplify_eq.
  unfold Memo.consistent, Memo.render. simpl.
  (* the flag *)
  assert (∃ fl', Memo.useMemo (App.isCurrentMonth (viewDate s) now) (viewDateId s)
                   (Some (fd, fl)) = (viewDateId s, fl')
                 ∧ fl' = App.isCurrentMonth (viewDate s) today
                 ∧ (fd = viewDateId s → fl' = fl)) as (fl' & -> & F2 & F3).
  { destruct (decide (fd = viewDateId s)) as [->|Hne].
    - rewrite useMemo_hit. exists fl. auto.
    - rewrite useMemo_miss by done. eexists. split_and!; [done|done|done]. }
  simpl.
  (* the array *)
  destruct (decide ((td, str) = (transactionsId s, App.currentMonthStr (viewDate s))))
    as [Hhit|Hmiss].
  - (* the array of the render before *)
    injection Hhit as -> ->.
    repeat (rewrite useMemo_hit; simpl).
    destruct Hvals as (Hp & Hc & Hsc); [done|].
    rewrite !useMemo_fst.
    split_and!; try done.
    intros _. split_and!.
    + by rewrite sort_any_Permutation.
    + done.
    + intros _ ->.
      destruct (decide (fd = viewDateId s)) as [->|Hne].
      * specialize (F3 eq_refl). subst fl.
        destruct (Hsc eq_refl eq_refl) as [Hs1 Hs2].
        rewrite useMemo_hit. simpl. split; [|done].
        destruct (decide (sb = monthlyBudget s)) as [->|Hb].
        -- by rewrite useMemo_hit.
        -- rewrite useMemo_miss by congruence. simpl.
           rewrite (stats_Permutation _ _ _ _ _ _ Hp). by apply stats_sameDay.
      * rewrite !useMemo_miss by congruence. simpl. split.
        -- rewrite (stats_Permutation _ _ _ _ _ _ Hp). by apply stats_sameDay.
        -- rewrite (chartData_Permutation _ _ _ _ _ Hp). by apply chartData_sameDay.
  - (* a new array *)
    rewrite !(useMemo_miss _ _ (transactionsId s, App.currentMonthStr (viewDate s))) by done.
    simpl.
    rewrite !useMemo_miss by (intros [=]; lia). simpl.
    rewrite ?useMemo_miss by lia. simpl.
    split_and!; try done.
    intros _. split_and!.
    + apply sort_any_Permutation.
    + done.
    + intros _ ->. split; [by apply stats_sameDay|by apply chartData_sameDay].
Qed.

Lemma renderOld_consistent (now : JsDate.t) (s : AppState.t)
  (prev : option Memo.cellsOld) :
  match prev with Some c => Memo.consistentOld s c | None => True end →
  Memo.consistentOld s (Memo.renderOld now s prev).
Proof.
  intros Hprev. destruct prev as [c|].
  2:{ unfold Memo.consistentOld, Memo.renderOld, Memo.useMemo. simpl.
      split_and!; try done. intros _. split; [apply sort_any_Permutation|done]. }
  destruct c as [[[td str] [aid items]] st ch [ka cats]].
  unfold Memo.consistentOld in Hprev. simpl in Hprev.
  destruct Hprev as (D3 & Ht & Hvals). simplify_eq.
  unfold Memo.consistentOld, Memo.renderOld. simpl.
  destruct (decide ((td, str) = (transactionsId s, AppOld.currentMonthStr now)))
    as [Hhit|Hmiss].
  - injection Hhit as -> ->.
    repeat (rewrite useMemo_hit; simpl).
    destruct Hvals as (Hp & Hc); [done|].
    split_and!; try done. intros _. split; [by rewrite sort_any_Permutation|done].
  - rewrite !(useMemo_miss _ _ (transactionsId s, AppOld.currentMonthStr now)) by done.
    simpl. rewrite ?useMemo_miss by lia. simpl.
    split_and!; try done. intros _. split; [apply sort_any_Permutation|done].
Qed.

(** What a render shows when its cells agree with the state. *)
Lemma render_view (today : JsDate.t) (s : AppState.t) (prev : option Memo.cells) :
  match prev with Some c => Memo.consistent today s c | None => True end →
  Spec.sameMonth (viewDate s) today →
  Memo.view (Memo.render today s prev)
  = App.render (transactions s) (monthlyBudget s) (viewDate s) today.
Proof.
  intros Hprev Hsame.
  assert (Spec.sameDay today today) as Hday by done.
  pose proof (render_consistent today today s prev Hday Hprev) as Hc.
  apply isCurrentMonth_sameMonth in Hsame.
  unfold App.render. rewrite Hsame.
  assert ((Memo.c_isCurrentMonth (Memo.render today s prev)).1 = viewDateId s) as E1.
  { unfold Memo.render. simpl. apply useMemo_fst. }
  assert ((Memo.c_currentMonthTransactions (Memo.render today s prev)).1
          = (transactionsId s, App.currentMonthStr (viewDate s))) as E2.
  { unfold Memo.render. simpl. apply useMemo_fst. }
  assert ((Memo.c_stats (Memo.render today s prev)).1.1.1.2 = monthlyBudget s) as E3.
  { unfold Memo.render. simpl. by rewrite useMemo_fst. }
  set (c := Memo.render today s prev) in *. clearbody c.
  unfold Memo.consistent in Hc. cbv zeta in Hc.
  destruct Hc as (D1 & D2 & D3 & _ & _ & Hflag & Hvals).
  specialize (Hflag E1). rewrite Hsame in Hflag.
  rewrite E2, E3 in Hvals. cbn [fst snd] in Hvals.
  destruct Hvals as (_ & Hcats & Hsc); [done|].
  destruct (Hsc E1 Hflag) as [Hs Hch].
  unfold Memo.view. rewrite Hs, Hch, Hcats. done.
Qed.

Lemma renderOld_view (today : JsDate.t) (s : AppState.t)
  (prev : option Memo.cellsOld) :
  match prev with Some c => Memo.consistentOld s c | None => True end →
  Memo.viewOld (Memo.renderOld today s prev)
  = AppOld.render (transactions s) (monthlyBudget s) today.
Proof.
  intros Hprev.
  pose proof (renderOld_consistent today s prev Hprev) as Hc.
  assert ((Memo.o_currentMonthTransactions (Memo.renderOld today s prev)).1
          = (transactionsId s, AppOld.currentMonthStr today)) as E2.
  { unfold Memo.renderOld. simpl. apply useMemo_fst. }
  assert (∃ l, l ≡ₚ arr_items_of (Memo.renderOld today s prev)
               ∧ Memo.o_stats (Memo.renderOld today s prev)
                 = AppOld.stats l (monthlyBudget s) today
               ∧ Memo.o_chartData (Memo.renderOld today s prev)
                 = AppOld.chartData l today) as (l & Hl & E3 & E4).
  { unfold Memo.renderOld. simpl. eexists. split_and!; [|done|done].
    by rewrite sort_any_Permutation. }
  set (c := Memo.renderOld today s prev) in *. clearbody c.
  unfold Memo.consistentOld in Hc. cbv zeta in Hc.
  destruct Hc as (_ & _ & Hvals).
  rewrite E2 in Hvals. cbn [fst snd] in Hvals.
  destruct Hvals as (Hp & Hcats); [done|].
  unfold Memo.viewOld, AppOld.render. rewrite Hcats, E3, E4.
  rewrite Hp in Hl.
  f_equal.
  - rewrite !stats_old_new. by apply stats_Permutation.
  - rewrite !chartData_old_new. by apply chartData_Permutation.
Qed.

Lemma run_consistent (today : JsDate.t) (steps : list Memo.step) (p : Memo.page) :
  Memo.rendersOn today steps →
  match Memo.memo p with
  | Some c => Memo.consistent today (Memo.state p) c
  | None => True
  end →
  match Memo.memo (Memo.run parseFloat numberToString steps p) with
  | Some c =>
      Memo.consistent today
        (Memo.state (Memo.run parseFloat numberToString steps p)) c
  | None => True
  end.
Proof.
  intros Hsteps. revert p. unfold Memo.run.
  induction Hsteps as [|st steps Hst _ IH]; intros p Hp; [done|].
  simpl. apply IH. destruct st as [e|now]; simpl.
  - destruct (Memo.memo p) as [c|]; [|done]. by apply consistent_event.
  - by apply render_consistent.
Qed.

Lemma runOld_consistent (steps : list Memo.step) (p : Memo.pageOld) :
  match Memo.memoOld p with
  | Some c => Memo.consistentOld (Memo.stateOld p) c
  | None => True
  end →
  match Memo.memoOld (Memo.runOld parseFloat numberToString steps p) with
  | Some c =>
      Memo.consistentOld
        (Memo.stateOld (Memo.runOld parseFloat numberToString steps p)) c
  | None => True
  end.
Proof.
  revert p. unfold Memo.runOld.
  induction steps as [|st steps IH]; intros p Hp; [done|].
  simpl. apply IH. destruct st as [e|now]; simpl.
  - destruct (Memo.memoOld p) as [c|]; [|done]. by apply consistentOld_event.
  - by apply renderOld_consistent.
Qed.

End Cells.

(** Computed at one value of the clock, the two versions agree on the
    month of today. *)
Lemma render_at_one_clock (transactions : list Transaction.t)
  (monthlyBudget : Qc) (viewDate today : JsDate.t) :
  Spec.sameMonth viewDate today →
  App.render transactions monthlyBudget viewDate today
  = AppOld.render transactions monthlyBudget today.
Proof.
  intros Hsame. unfold App.render, AppOld.render.
  rewrite (proj2 (isCurrentMonth_sameMonth _ _) Hsame).
  destruct Hsame as [Hy Hm].
  unfold App.currentMonthTransactions, AppOld.currentMonthTransactions,
    App.currentMonthStr, AppOld.currentMonthStr, Shared.monthStr.
  unfold App.stats, AppOld.stats, App.chartData, AppOld.chartData.
  rewrite Hy, Hm. reflexivity.
Qed.

(** * The claims *)

(** ** C1: the sums of the chart and the totals *)




(** ** C2: the empty transaction list *)

(** C2, as the specification states it, fails: with no transaction and a
    budget of 1000 on 10 June, the remaining budget is the budget, 21 days
    remain, and the chart has the ten points of the days 1 to 10. *)
Lemma empty_list_not_all_zero :
  let v := App.render [] (Num.ofZ 1000) Ex.june10 Ex.june10 in
  DailyStats.remainingBudget (App.v_stats v) = Num.ofZ 1000
  ∧ DailyStats.daysRemaining (App.v_stats v) = 21
  ∧ length (App.v_chartData v) = 10%nat
  ∧ DailyStats.remainingBudget (App.v_stats v) ≠ 0%Qc
  ∧ App.v_chartData v ≠ [].
Proof.
  cbv zeta. split_and!.
  - by_value.
  - vm_compute. reflexivity.
  - vm_compute. reflexivity.
  - by_value.
  - intros H. apply (f_equal length) in H. vm_compute in H. discriminate.
Qed.

(** C2, amended. For an empty transaction list and any budget, at a render
    that computes its cells at the clock value [today]: the two totals are
    0 and the remaining budget is the budget; in the month of today
    [daysRemaining] is [max(1, lastDayOfMonth - today.day + 1)] and
    [dailyAvailable] is the budget over this number of days, or 0 for a
    budget below 0, and outside the month of today both are 0;
    [dailyAvailable] is never negative; the chart is made of the points of
    the days 1 to its length, all with income 0 and expense 0; the
    category list is empty. For dates of the calendar whose time values
    follow the calendar, the chart has the days 1 to [today.day] in the
    month of today, all the days of a past month, and it is empty exactly
    in a strictly future month; in the month of today [daysRemaining] is
    the number of days from today to the end of the month. *)
Theorem empty_list_view (budget : Qc) (viewDate today : JsDate.t) :
  let v := App.render [] budget viewDate today in
  let s := App.v_stats v in
  let chart := App.v_chartData v in
  let lastDayOfMonth :=
    JsDate.lastDayBefore (JsDate.getFullYear viewDate) (JsDate.getMonth viewDate + 1) in
  DailyStats.totalSpentThisMonth s = 0%Qc
  ∧ DailyStats.totalIncomeThisMonth s = 0%Qc
  ∧ DailyStats.remainingBudget s = budget
  ∧ DailyStats.daysRemaining s
    = (if decide (Spec.sameMonth viewDate today)
       then Z.max 1 (lastDayOfMonth - JsDate.getDate today + 1) else 0)
  ∧ DailyStats.dailyAvailable s
    = (if decide (Spec.sameMonth viewDate today)
       then Spec.atLeastZero (budget / Qc_of_Z (DailyStats.daysRemaining s))
       else 0)%Qc
  ∧ (0 ≤ DailyStats.dailyAvailable s)%Qc
  ∧ chart = (λ i, ChartDataPoint.mk (pretty i +:+ "日") 0%Qc 0%Qc)
              <$> seqZ 1 (Z.of_nat (length chart))
  ∧ (Spec.calendarDate viewDate → Spec.calendarDate today →
     Spec.chronological viewDate today →
     Z.of_nat (length chart) = Spec.lastShownDay viewDate today
     ∧ (chart = [] ↔ Spec.monthAfter viewDate today)
     ∧ (Spec.sameMonth viewDate today →
        DailyStats.daysRemaining s
        = Spec.daysInMonth (JsDate.getFullYear today) (JsDate.getMonth today)
          - JsDate.getDate today + 1))
  ∧ App.v_categoryStats v = [].
Proof.
  intros v s chart lastDayOfMonth. subst v s chart lastDayOfMonth.
  unfold App.render.
  cbn [App.v_stats App.v_chartData App.v_categoryStats].
  rewrite isCurrentMonth_decide.
  unfold App.currentMonthTransactions, Shared.inMonth. rewrite filter_nil.
  pose proof (stats_fields [] budget viewDate today
                (bool_decide (Spec.sameMonth viewDate today))) as H.
  cbv zeta in H.
  destruct H as (H3 & H4 & H5 & H6).
  rewrite total_nil in H3.
  rewrite stats_totalSpent, stats_totalIncome, !total_nil.
  assert (DailyStats.remainingBudget
            (App.stats [] budget viewDate
               (bool_decide (Spec.sameMonth viewDate today)) today) = budget) as Hr.
  { rewrite H3. ring. }
  rewrite Hr in H5.
  set (st := App.stats [] budget viewDate
               (bool_decide (Spec.sameMonth viewDate today)) today) in *.
  set (chart := App.chartData [] viewDate
                  (bool_decide (Spec.sameMonth viewDate today)) today).
  assert (∀ n, chart = Spec.chartPoint [] <$> seqZ 1 n →
               chart = (λ i, ChartDataPoint.mk (pretty i +:+ "日") 0%Qc 0%Qc)
                         <$> seqZ 1 n) as Hzero.
  { intros n ->. apply list_fmap_ext. intros _ i _. apply chartPoint_nil. }
  split_and!; try done.
  - rewrite H4. apply if_bool_decide.
  - rewrite H5. apply if_bool_decide.
  - apply Hzero. apply (chart_sums [] viewDate today).
  - intros Hv Ht Hchr.
    assert (chart = Spec.chartPoint [] <$> seqZ 1 (Spec.lastShownDay viewDate today))
      as Hc.
    { unfold chart. rewrite <- isCurrentMonth_decide.
      by apply chartData_shown. }
    destruct (calendarDate_valid _ Hv) as (Hvm & Hvd & Hvy).
    destruct (calendarDate_valid _ Ht) as (Htm & Htd & Hty).
    pose proof (monthLength_bounds (JsDate.getFullYear viewDate)
                  (JsDate.getMonth viewDate)) as Hb.
    rewrite (monthLength_daysInMonth (JsDate.getFullYear viewDate)) in Hb by done.
    assert (0 ≤ Spec.lastShownDay viewDate today
            ∧ (Spec.lastShownDay viewDate today = 0 ↔ Spec.monthAfter viewDate today))
      as [Hpos Hiff].
    { unfold Spec.lastShownDay.
      destruct (decide (Spec.sameMonth viewDate today)) as [Hs|Hs].
      - split; [lia|]. split; [lia|]. intros Ha. by apply monthAfter_not_same in Ha.
      - destruct (decide (Spec.monthAfter viewDate today)); [done|].
        split; [lia|]. split; [lia|done]. }
    split_and!.
    + rewrite Hc, length_fmap, length_seqZ. lia.
    + rewrite <- Hiff. rewrite Hc. split.
      * intros Hnil. apply (f_equal length) in Hnil.
        rewrite length_fmap, length_seqZ in Hnil. simpl in Hnil. lia.
      * intros ->. done.
    + intros Hs. rewrite H4. rewrite bool_decide_eq_true_2 by done.
      destruct Hs as [Hy Hm]. rewrite Hy, Hm.
      rewrite lastDayBefore_monthLength by done.
      rewrite <- monthLength_daysInMonth by done. lia.
Qed.

(** ** C3: the derived statistics *)

(** C3. For every transaction subset, budget and today, [stats] returns the
    sums of the EXPENSE and of the INCOME amounts as totals and
    [remainingBudget = budget - totalExpense]; in the current month
    [daysRemaining = max(1, lastDayOfMonth - today.day + 1)] and
    [dailyAvailable = max(0, remainingBudget / daysRemaining)], in any other
    month both are 0. The maximum with 0 is written out: [dailyAvailable]
    is never negative, it is 0 when the remaining budget is 0 or less, and
    otherwise, in the current month, [dailyAvailable] times [daysRemaining]
    is the remaining budget. [lastDayOfMonth] is the number of days that the
    calendar gives the viewed month. With a budget of 1000, an expense of
    100 and an income of 50 on day 2 of June, the remaining budget is 900,
    29 days remain and 900/29 is available per day. *)
Theorem stats_formulas (subset : list Transaction.t) (budget : Qc)
  (viewDate today : JsDate.t) (isCurrentMonth : bool) :
  let s := App.stats subset budget viewDate isCurrentMonth today in
  let lastDayOfMonth :=
    JsDate.lastDayBefore (JsDate.getFullYear viewDate) (JsDate.getMonth viewDate + 1) in
  let scenario :=
    App.stats Ex.expenseIncome (Qc_of_Z 1000) Ex.june2 true Ex.june2 in
  DailyStats.totalSpentThisMonth s = Spec.total EXPENSE subset
  ∧ DailyStats.totalIncomeThisMonth s = Spec.total INCOME subset
  ∧ DailyStats.remainingBudget s = (budget - Spec.total EXPENSE subset)%Qc
  ∧ DailyStats.daysRemaining s
    = (if isCurrentMonth
       then Z.max 1 (lastDayOfMonth - JsDate.getDate today + 1) else 0)
  ∧ DailyStats.dailyAvailable s
    = (if isCurrentMonth
       then Spec.atLeastZero (DailyStats.remainingBudget s
                              / Qc_of_Z (DailyStats.daysRemaining s))
       else 0)%Qc
  ∧ (0 ≤ DailyStats.dailyAvailable s)%Qc
  ∧ (isCurrentMonth = true → (0 ≤ DailyStats.remainingBudget s)%Qc →
     (DailyStats.dailyAvailable s * Qc_of_Z (DailyStats.daysRemaining s)
      = DailyStats.remainingBudget s)%Qc)
  ∧ ((DailyStats.remainingBudget s ≤ 0)%Qc → DailyStats.dailyAvailable s = 0%Qc)
  ∧ (Spec.calendarDate viewDate →
     lastDayOfMonth
     = Spec.daysInMonth (JsDate.getFullYear viewDate) (JsDate.getMonth viewDate))
  ∧ (this (DailyStats.remainingBudget scenario) = 900%Q
     ∧ DailyStats.daysRemaining scenario = 29
     ∧ this (DailyStats.dailyAvailable scenario) = (900 # 29)%Q).
Proof.
  intros s lastDayOfMonth scenario.
  destruct (stats_fields subset budget viewDate today isCurrentMonth)
    as (Hr & Hd & Ha & Hpos).
  fold s in Hr, Hd, Ha, Hpos. fold lastDayOfMonth in Hd.
  split_and!.
  - apply stats_totalSpent.
  - apply stats_totalIncome.
  - exact Hr.
  - exact Hd.
  - exact Ha.
  - exact Hpos.
  - intros -> Hnonneg. rewrite Ha.
    apply atLeastZero_div; [rewrite Hd; lia|done].
  - intros Hneg. rewrite Ha. destruct isCurrentMonth; [|done].
    apply atLeastZero_div; [rewrite Hd; lia|done].
  - intros (Hm & _ & Hy)%calendarDate_valid. unfold lastDayOfMonth.
    rewrite lastDayBefore_monthLength by done.
    by apply monthLength_daysInMonth.
  - vm_compute. reflexivity.
  - vm_compute. reflexivity.
  - vm_compute. reflexivity.
Qed.

(** ** C4: the days on the chart *)



(** ** C5: the percentages *)

Section Percentages.
Local Open Scope Qc_scope.

(** C5, at the failing input. The expenses 30 for "__proto__" and 10 for
    "Tea" have the positive total 40; the read of [groupMap["__proto__"]]
    finds the prototype and the write to it is ignored, so the breakdown has
    the only slice Tea, 10, 25 percent, and the percentages add up to 25. *)
Theorem percentages_proto_title :
  0 < Spec.total EXPENSE Ex.protoTitle
  ∧ Spec.readable <$> App.categoryStats Ex.protoTitle
    = [("Tea", Some 10%Q, Some 25%Q)]
  ∧ this <$> Spec.sumPercentages (App.categoryStats Ex.protoTitle) = Some 25%Q
  ∧ Spec.sumPercentages (App.categoryStats Ex.protoTitle) ≠ Some (Num.ofZ 100).
Proof.
  split_and!; try (vm_compute; reflexivity).
  intros H. apply (f_equal (fmap this)) in H. vm_compute in H. discriminate.
Qed.

(** With the title "constructor" the group holds a string and its
    percentage is [NaN]: the percentages have no sum. *)
Lemma percentages_constructor_title :
  0 < Spec.total EXPENSE Ex.constructorTitle
  ∧ Spec.sumPercentages (App.categoryStats Ex.constructorTitle) = None.
Proof. split; vm_compute; reflexivity. Qed.

End Percentages.

(** ** C6: the category breakdown *)

Section Categories.
Local Open Scope Qc_scope.

(** C6, as the specification states it, fails: with two expenses of 10
    titled "2" and "1", in this order, the object lists the key "1" first,
    the sort keeps the tie as it finds it, and the breakdown starts with
    "1"; in first-encountered order it would start with "2". *)
Lemma ties_not_first_encountered :
  CategoryData.name <$> App.categoryStats Ex.numericTitles = ["1"; "2"]
  ∧ CategoryData.name <$> Spec.categoryBreakdown Ex.numericTitles = ["2"; "1"]
  ∧ App.categoryStats Ex.numericTitles ≠ Spec.categoryBreakdown Ex.numericTitles.
Proof.
  assert (CategoryData.name <$> App.categoryStats Ex.numericTitles = ["1"; "2"])
    as H1 by (vm_compute; reflexivity).
  assert (CategoryData.name <$> Spec.categoryBreakdown Ex.numericTitles
          = ["2"; "1"]) as H2 by (vm_compute; reflexivity).
  split_and!; [done..|].
  intros Heq. rewrite Heq, H2 in H1. discriminate.
Qed.

(** C6, amended. For every transaction subset with a positive total of
    expenses whose titles are not names of members of [Object.prototype],
    the breakdown (of both versions) has one slice per title of an expense,
    with the sum of the amounts of the title as amount and 100 times this
    sum over the total as percentage; the slices are in descending order of
    amount, and the slices of one amount are in the order in which the
    object lists its keys: titles that are array indices first, in
    ascending numeric order, then the other titles in first-encountered
    order. The expenses 30 and 20 for "Coffee" and 10 for "Tea" give
    Coffee, 50, 250/3 percent, then Tea, 10, 50/3 percent. *)
Theorem categoryStats_grouped_sorted (subset : list Transaction.t) :
  let expenses := filter (λ t, Transaction.type t = EXPENSE) subset in
  let titles := Transaction.title <$> expenses in
  let cats := App.categoryStats subset in
  Spec.plainTitles expenses → 0 < Spec.total EXPENSE subset →
  cats ≡ₚ Spec.slice expenses <$> Spec.firstSeen titles
  ∧ StronglySorted (λ a b, Spec.amountOf b ≤ Spec.amountOf a) cats
  ∧ (∀ v, StronglySorted
            (λ a b, Spec.keyBefore titles (CategoryData.name a) (CategoryData.name b))
            (filter (λ c, Spec.amountOf c = v) cats))
  ∧ AppOld.categoryStats subset = cats
  ∧ Spec.readable <$> App.categoryStats Ex.coffeeTea
    = [("Coffee", Some 50%Q, Some (250 # 3)%Q); ("Tea", Some 10%Q, Some (50 # 3)%Q)].
Proof.
  intros expenses titles cats Hplain Hpos.
  assert (Spec.total EXPENSE subset ≠ 0) as Hne.
  { intros Heq. rewrite Heq in Hpos. by apply Qclt_not_eq in Hpos. }
  assert (cats = JsArray.sort Shared.byAmountDesc
                   (Shared.toCategory (Shared.sumAmounts expenses)
                      <$> Obj.entries (Spec.groups expenses))) as Hcats
    by (by apply categoryStats_plain).
  assert (Forall Spec.numeric
            (Shared.toCategory (Shared.sumAmounts expenses)
               <$> Obj.entries (Spec.groups expenses))) as Hnum.
  { rewrite entries_slices. apply Forall_fmap, Forall_true.
    intros k. apply slice_numeric. }
  split_and!.
  - rewrite Hcats, sort_Permutation. apply entries_slices.
  - rewrite Hcats. by apply sort_descending.
  - intros v. rewrite Hcats, sort_stable by done.
    apply StronglySorted_filter.
    eapply StronglySorted_fmap; [|apply (entries_order titles)].
    + intros e1 e2 H. by rewrite !toCategory_name.
    + rewrite groups_keys. apply NoDup_firstSeen.
    + apply groups_sorted.
  - done.
  - vm_compute. reflexivity.
Qed.

Lemma categoryStats_grouped_sorted_witness :
  Spec.plainTitles (filter (λ t, Transaction.type t = EXPENSE) Ex.coffeeTea)
  ∧ 0 < Spec.total EXPENSE Ex.coffeeTea
  ∧ StronglySorted (λ a b, Spec.amountOf b ≤ Spec.amountOf a)
      (App.categoryStats Ex.coffeeTea).
Proof.
  assert (Spec.plainTitles
            (filter (λ t, Transaction.type t = EXPENSE) Ex.coffeeTea)) as H1.
  { apply (bool_decide_unpack _). vm_compute. exact I. }
  assert (0 < Spec.total EXPENSE Ex.coffeeTea) as H2.
  { vm_compute. reflexivity. }
  split; [exact H1|]. split; [exact H2|].
  exact (proj1 (proj2 (categoryStats_grouped_sorted Ex.coffeeTea H1 H2))).
Defined.

End Categories.

(** ** C7: no division by zero *)

(** C7. For every transaction list, budget and today, the aggregation
    computes its result without dividing by zero: with every division
    guarded, [stats] (of both versions) and [categoryStats] still return
    their result; in the current-month branch the divisor [daysRemaining] is
    at least 1, and a category list that is not empty has a total that is
    not zero. *)
Theorem no_division_by_zero (subset : list Transaction.t) (budget : Qc)
  (viewDate today : JsDate.t) (isCurrentMonth : bool) :
  Guarded.stats subset budget viewDate isCurrentMonth today
  = Some (App.stats subset budget viewDate isCurrentMonth today)
  ∧ Guarded.stats_old subset budget today = Some (AppOld.stats subset budget today)
  ∧ Guarded.categoryStats subset = Some (App.categoryStats subset)
  ∧ (isCurrentMonth = true →
     1 ≤ DailyStats.daysRemaining
           (App.stats subset budget viewDate isCurrentMonth today))
  ∧ 1 ≤ DailyStats.daysRemaining (AppOld.stats subset budget today)
  ∧ (App.categoryStats subset ≠ [] → Spec.total EXPENSE subset ≠ 0%Qc).
Proof.
  repeat split.
  - unfold Guarded.stats, App.stats. destruct isCurrentMonth; [|done].
    rewrite div_nonzero by (apply ofZ_nonzero; lia). done.
  - unfold Guarded.stats_old, AppOld.stats.
    rewrite div_nonzero by (apply ofZ_nonzero; lia). done.
  - unfold Guarded.categoryStats, App.categoryStats.
    case_decide; [done|]. by rewrite mapM_toCategory.
  - intros ->. unfold App.stats. simpl. lia.
  - unfold AppOld.stats. simpl. lia.
  - unfold App.categoryStats. rewrite sumAmounts_ofType.
    case_decide; done.
Qed.

(** ** C8: the two versions agree on the current month *)




(** ** C9: adding a transaction *)

(** C9, at the failing input. At seven in the morning of 1 July, in a zone
    eight hours ahead of UTC, a valid form is submitted on the page that
    shows July, the month of today. In both versions the transaction put in
    front of the list is dated 2024-06-30, the day that [toISOString] gives,
    not 1 July, and the transactions of the current month, which the page
    shows, do not contain it. *)
Theorem handleAddTransaction_dated_utc :
  let added old :=
    Page.handle Str.parseFloat (λ _, "1000") old (Page.Submit Ex.envAhead)
      Ex.formJuly in
  let today := Env.newDate Ex.envAhead in
  (JsDate.getFullYear today, JsDate.getMonth today + 1, JsDate.getDate today)
  = (2024, 7, 1)
  ∧ Transaction.date <$> AppState.transactions (added false) = ["2024-06-30"]
  ∧ Transaction.date <$> AppState.transactions (added true) = ["2024-06-30"]
  ∧ App.isCurrentMonth (AppState.viewDate (added false)) today = true
  ∧ App.currentMonthTransactions (AppState.transactions (added false))
      (AppState.viewDate (added false)) = []
  ∧ AppOld.currentMonthTransactions (AppState.transactions (added true)) today
    = [].
Proof. cbv zeta. split_and!; vm_compute; reflexivity. Qed.

(** ** C10: the budget stays positive *)

(** C10. Saving the budget, in both versions, replaces the monthly budget
    by the entered value when it parses to a number greater than 0 and
    leaves the state unchanged otherwise; so a budget that is positive
    remains positive through any sequence of events of the page.
    [parseFloat] is any function from strings to a rational or [NaN]. *)
Theorem budget_stays_positive (parseFloat : string → option Qc)
  (numberToString : Qc → string) (old : bool) (es : list Page.event)
  (s : AppState.t) :
  (0 < AppState.monthlyBudget s)%Qc →
  let saved := Page.handle parseFloat numberToString old Page.ClickSave s in
  (∀ val, parseFloat (AppState.tempBudgetInput s) = Some val → (0 < val)%Qc →
     AppState.monthlyBudget saved = val)
  ∧ (¬ (∃ val, parseFloat (AppState.tempBudgetInput s) = Some val ∧ (0 < val)%Qc) →
     saved = s)
  ∧ (0 < AppState.monthlyBudget
           (Page.run parseFloat numberToString old es s))%Qc.
Proof.
  intros Hpos saved. subst saved. split_and!.
  - intros val Hp Hv. rewrite saveBudget_budget, Hp. by rewrite decide_True.
  - apply saveBudget_rejected.
  - revert s Hpos. unfold Page.run.
    induction es as [|e es IH]; intros s Hpos; [done|].
    simpl. apply IH. by apply handle_positive.
Qed.

Lemma budget_stays_positive_witness :
  (0 < AppState.monthlyBudget (Ex.form "Lunch" "12.50" "800"))%Qc
  ∧ (0 < AppState.monthlyBudget
           (Page.run Str.parseFloat (λ _, "1000") false
              [Page.TypeBudget "-5"; Page.ClickSave; Page.Submit Ex.env;
               Page.ClickMonth (-1); Page.TypeBudget "800"; Page.ClickSave]
              (Ex.form "Lunch" "12.50" "800")))%Qc.
Proof.
  assert (0 < AppState.monthlyBudget (Ex.form "Lunch" "12.50" "800"))%Qc as H
    by reflexivity.
  split; [exact H|].
  apply (budget_stays_positive Str.parseFloat (λ _, "1000") false _ _ H).
Defined.

